(** * scan_metadata: the SQS -> SNS -> S3 metadata handler

    A shallow embedding of [src/lambda/scan_metadata.py] and the
    properties of its batch processing.

    Python values that reach the handler are JSON values; Python
    exceptions are values of [exn]; statements that can raise live in a
    state-and-exception monad whose state survives a raise (as Python
    locals and side effects do).  The S3 client, the clock, the json
    module and the process environment are the handler's collaborators:
    the class [Runtime] is their interface, and the handler and its
    properties are stated for any instance of it.  Every side effect of a
    run is recorded, in program order, in the trace of the state. *)

From Stdlib Require Import List String Ascii ZArith NArith Lia Bool Arith PeanoNat.
From Stdlib Require Import Floats.PrimFloat DecimalString.
Import ListNotations.
Open Scope string_scope.
Set Warnings "-register-all".

(** ** Python values and exceptions *)

Module Py.

(** What [json.loads] produces: None, bool, int, float, str, list, dict.
    A dict is the list of its items in insertion order; lookup takes the
    first item with the key. *)
Inductive json : Type :=
| JNull
| JBool (b : bool)
| JInt (n : Z)
| JFloat (x : float)
| JStr (s : string)
| JArr (items : list json)
| JObj (members : list (string * json)).

(** The exceptions the handler can meet, all of them subclasses of
    [Exception] (what [except Exception] catches). *)
Inductive exn : Type :=
| KeyError (key : string)
| TypeError (what : string)
| AttributeError (what : string)
| JSONDecodeError (what : string)
| ClientError (code : string)
| OtherException (name : string).

Inductive res (A : Type) : Type :=
| Ok (a : A)
| Raise (e : exn).
Arguments Ok {A} a.
Arguments Raise {A} e.

Definition res_bind {A B} (r : res A) (k : A -> res B) : res B :=
  match r with
  | Ok a => k a
  | Raise e => Raise e
  end.

Fixpoint dict_get (members : list (string * json)) (k : string) : option json :=
  match members with
  | [] => None
  | (k', v) :: rest => if String.eqb k' k then Some v else dict_get rest k
  end.

(** [v[k]] for a string key [k]: only a dict can be indexed by a string. *)
Definition getitem (v : json) (k : string) : res json :=
  match v with
  | JObj members =>
      match dict_get members k with
      | Some x => Ok x
      | None => Raise (KeyError k)
      end
  | JArr _ => Raise (TypeError "list indices must be integers or slices, not str")
  | JStr _ => Raise (TypeError "string indices must be integers")
  | _ => Raise (TypeError "object is not subscriptable")
  end.

Fixpoint chars (s : string) : list json :=
  match s with
  | EmptyString => []
  | String c rest => JStr (String c EmptyString) :: chars rest
  end.

(** The items a [for] loop visits: the elements of a list, the characters
    of a str, the keys of a dict; anything else is not iterable. *)
Definition iter (v : json) : res (list json) :=
  match v with
  | JArr items => Ok items
  | JStr s => Ok (chars s)
  | JObj members => Ok (map (fun kv => JStr (fst kv)) members)
  | _ => Raise (TypeError "object is not iterable")
  end.

(** [s.replace(old, new)] for one-character [old] and [new]. *)
Fixpoint replace (old new : ascii) (s : string) : string :=
  match s with
  | EmptyString => EmptyString
  | String c rest =>
      String (if Ascii.eqb c old then new else c) (replace old new rest)
  end.

(** [os.environ[k]] *)
Fixpoint environ_get (environ : list (string * string)) (k : string) : res string :=
  match environ with
  | [] => Raise (KeyError k)
  | (k', v) :: rest => if String.eqb k' k then Ok v else environ_get rest k
  end.

End Py.
Export Py.

(** ** datetime *)

Module Datetime.

(** A [datetime.datetime]; [tzinfo] is the UTC offset in whole minutes of
    an aware value and [None] for a naive one ([utcnow] returns naive
    values). *)
Record datetime : Type := {
  year : N; month : N; day : N;
  hour : N; minute : N; second : N;
  microsecond : N;
  tzinfo : option Z
}.

(** The field ranges of a datetime whose year prints with four digits. *)
Definition in_range (t : datetime) : Prop :=
  (year t < 10000 /\ month t < 100 /\ day t < 100 /\
   hour t < 100 /\ minute t < 100 /\ second t < 100 /\
   microsecond t < 1000000)%N.

Definition digit (n : N) : ascii := ascii_of_N (48 + n mod 10).

(** [n] in decimal on exactly [width] digits, zero padded. *)
Fixpoint zero_pad (width : nat) (n : N) : string :=
  match width with
  | O => EmptyString
  | S w => zero_pad w (n / 10) ++ String (digit n) EmptyString
  end.

Definition directive (t : datetime) (c : ascii) : string :=
  if Ascii.eqb c "Y" then zero_pad 4 (year t)
  else if Ascii.eqb c "m" then zero_pad 2 (month t)
  else if Ascii.eqb c "d" then zero_pad 2 (day t)
  else if Ascii.eqb c "H" then zero_pad 2 (hour t)
  else if Ascii.eqb c "M" then zero_pad 2 (minute t)
  else if Ascii.eqb c "S" then zero_pad 2 (second t)
  else if Ascii.eqb c "f" then zero_pad 6 (microsecond t)
  else String "%" (String c EmptyString).

(** [t.strftime(fmt)] for the directives %Y %m %d %H %M %S %f. *)
Fixpoint strftime (t : datetime) (fmt : string) : string :=
  match fmt with
  | EmptyString => EmptyString
  | String c rest =>
      if Ascii.eqb c "%" then
        match rest with
        | String d rest' => directive t d ++ strftime t rest'
        | EmptyString => String c EmptyString
        end
      else String c (strftime t rest)
  end.

Definition format_offset (minutes : Z) : string :=
  (if (minutes <? 0)%Z then "-" else "+")
  ++ zero_pad 2 (Z.to_N (Z.abs minutes / 60))
  ++ ":" ++ zero_pad 2 (Z.to_N (Z.abs minutes mod 60)).

(** [t.isoformat()]: the fraction is printed only when it is not zero, the
    offset only for an aware value. *)
Definition isoformat (t : datetime) : string :=
  zero_pad 4 (year t) ++ "-" ++ zero_pad 2 (month t) ++ "-" ++ zero_pad 2 (day t)
  ++ "T" ++ zero_pad 2 (hour t) ++ ":" ++ zero_pad 2 (minute t)
  ++ ":" ++ zero_pad 2 (second t)
  ++ (if N.eqb (microsecond t) 0 then "" else "." ++ zero_pad 6 (microsecond t))
  ++ match tzinfo t with
     | None => ""
     | Some off => format_offset off
     end.

End Datetime.
Export Datetime.

(** ** urllib.parse.unquote_plus *)

Module Urllib.

Definition hex_value (c : ascii) : option nat :=
  let n := nat_of_ascii c in
  if ((48 <=? n) && (n <=? 57))%nat then Some (n - 48)
  else if ((65 <=? n) && (n <=? 70))%nat then Some (n - 55)
  else if ((97 <=? n) && (n <=? 102))%nat then Some (n - 87)
  else None.

(** Percent-decoding on the UTF-8 bytes of a str: [%XY] with two hex
    digits becomes the byte [0xXY]; a [%] not followed by two hex digits
    stays.  (The replacement of decoded bytes that are not valid UTF-8 by
    U+FFFD is outside this byte-level model.) *)
Fixpoint unquote (s : string) : string :=
  match s with
  | EmptyString => EmptyString
  | String c rest =>
      if Ascii.eqb c "%" then
        match rest with
        | String a (String b rest') =>
            match hex_value a, hex_value b with
            | Some x, Some y => String (ascii_of_nat (16 * x + y)) (unquote rest')
            | _, _ => String c (unquote rest)
            end
        | _ => String c (unquote rest)
        end
      else String c (unquote rest)
  end.

Definition unquote_plus (s : string) : string :=
  unquote (replace "+" " " s).

Definition hex_digit (n : nat) : ascii :=
  ascii_of_nat (if (n <? 10)%nat then 48 + n else 55 + n).

(** The characters [quote_plus] leaves as they are: letters, digits and
    [_.-~]. *)
Definition always_safe (c : ascii) : bool :=
  let n := nat_of_ascii c in
  ((48 <=? n) && (n <=? 57) || (65 <=? n) && (n <=? 90)
   || (97 <=? n) && (n <=? 122))%nat
  || Ascii.eqb c "_" || Ascii.eqb c "." || Ascii.eqb c "-" || Ascii.eqb c "~".

Definition quote_char (c : ascii) : string :=
  if always_safe c then String c EmptyString
  else if Ascii.eqb c " " then "+"
  else String "%" (String (hex_digit (nat_of_ascii c / 16))
                     (String (hex_digit (nat_of_ascii c mod 16)) EmptyString)).

(** [urllib.parse.quote_plus], the encoding [unquote_plus] reverses: a
    space becomes [+], a byte that is not always safe becomes [%XY]. *)
Fixpoint quote_plus (s : string) : string :=
  match s with
  | EmptyString => EmptyString
  | String c rest => quote_char c ++ quote_plus rest
  end.

End Urllib.
Export Urllib.

(** ** The handler's collaborators and what a run records *)

(** The part of a [head_object] response the handler reads. *)
Record head_response : Type := {
  ContentType : option string;
  LastModified : option datetime
}.

(** The lines the handler prints, by their f-string. *)
Inductive log_line : Type :=
| LogProcessing (source_bucket : json) (object_key : string)
| LogMetadataError (e : exn)
| LogStored (destination_bucket result_key : string)
| LogRecordError (e : exn)
| LogRecord (record : json).

(** One entry per side effect of a run, in program order, with the
    outcome the collaborator gave. *)
Inductive call : Type :=
| Print (line : log_line)
| HeadObject (Bucket : json) (Key : string) (outcome : res head_response)
| UtcNow (t : datetime)
| PutObject (Bucket Key Body CType : string) (outcome : option exn).

(** The handler's return value. *)
Record response : Type := {
  statusCode : Z;
  body : string
}.

(** The S3 client, the clock, the json module and the process
    environment.  [W] is the state of the outside world: a service call
    or a clock read answers from it and moves it.  [head_object] answers
    with a response or raises; [put_object] answers [None] when the write
    is done and [Some e] when it raises [e]; [json_dumps indent v] is
    [json.dumps(v, indent=indent)]. *)
Class Runtime (W : Type) : Type := {
  head_object : json -> string -> W -> res head_response * W;
  put_object : string -> string -> string -> string -> W -> option exn * W;
  utcnow : W -> datetime * W;
  json_loads : string -> res json;
  json_dumps : option nat -> json -> string;
  environ : list (string * string)
}.

(** The world, the calls made so far and the handler's two counters. *)
Record state (W : Type) : Type := {
  world : W;
  trace : list call;
  processed_count : Z;
  failed_count : Z
}.
Arguments world {W} s.
Arguments trace {W} s.
Arguments processed_count {W} s.
Arguments failed_count {W} s.

(** The fields lines 31-34 read from one S3 event; [object_key] is the
    key after [unquote_plus]. *)
Record s3_event : Type := {
  source_bucket : json;
  object_key : string;
  object_size : json;
  event_time : json
}.

Declare Scope res_scope.
Delimit Scope res_scope with res.
Notation "x <- c1 ;; c2" := (res_bind c1 (fun x => c2))
  (at level 61, c1 at next level, right associativity) : res_scope.

(** ** The handler *)

Section Handler.

Context {W : Type} {RT : Runtime W}.

(** A statement: it runs from a state, returns or raises, and leaves a
    state either way. *)
Definition M (A : Type) : Type := state W -> res A * state W.

Definition ret {A} (a : A) : M A := fun s => (Ok a, s).

Definition bind {A B} (m : M A) (k : A -> M B) : M B :=
  fun s =>
    match m s with
    | (Ok a, s') => k a s'
    | (Raise e, s') => (Raise e, s')
    end.

Definition lift {A} (r : res A) : M A := fun s => (r, s).

(** [try: body except Exception as e: handler] *)
Definition try_except {A} (body : M A) (handler : exn -> M A) : M A :=
  fun s =>
    match body s with
    | (Ok a, s') => (Ok a, s')
    | (Raise e, s') => handler e s'
    end.

Declare Scope stmt_scope.
Delimit Scope stmt_scope with stmt.
Notation "x <- c1 ;; c2" := (bind c1 (fun x => c2))
  (at level 61, c1 at next level, right associativity) : stmt_scope.
Notation "c1 ;; c2" := (bind c1 (fun _ => c2))
  (at level 61, right associativity) : stmt_scope.

(** [for x in items: body] *)
Fixpoint for_each {A} (items : list A) (loop_body : A -> M unit) : M unit :=
  match items with
  | [] => ret tt
  | x :: rest => (loop_body x ;; for_each rest loop_body)%stmt
  end.

Definition record_call (c : call) (w : W) (s : state W) : state W :=
  {| world := w; trace := trace s ++ [c];
     processed_count := processed_count s; failed_count := failed_count s |}.

(** [print(...)]: a line on standard output; it returns normally. *)
Definition print (line : log_line) : M unit :=
  fun s => (Ok tt, record_call (Print line) (world s) s).

Definition s3_head_object (Bucket : json) (Key : string) : M head_response :=
  fun s =>
    let (r, w) := head_object Bucket Key (world s) in
    (r, record_call (HeadObject Bucket Key r) w s).

Definition s3_put_object (Bucket Key Body CType : string) : M unit :=
  fun s =>
    let (o, w) := put_object Bucket Key Body CType (world s) in
    (match o with
     | None => Ok tt
     | Some e => Raise e
     end,
     record_call (PutObject Bucket Key Body CType o) w s).

Definition datetime_utcnow : M datetime :=
  fun s =>
    let (t, w) := utcnow (world s) in
    (Ok t, record_call (UtcNow t) w s).

(** [processed_count = p] and [failed_count = f] *)
Definition set_processed_count (p : Z) : M unit :=
  fun s =>
    (Ok tt, {| world := world s; trace := trace s;
               processed_count := p; failed_count := failed_count s |}).

Definition set_failed_count (f : Z) : M unit :=
  fun s =>
    (Ok tt, {| world := world s; trace := trace s;
               processed_count := processed_count s; failed_count := f |}).

(** [processed_count += 1] and [failed_count += 1] *)
Definition incr_processed : M unit :=
  fun s => set_processed_count (processed_count s + 1) s.

Definition incr_failed : M unit :=
  fun s => set_failed_count (failed_count s + 1) s.

Definition get_counts : M (Z * Z) :=
  fun s => (Ok (processed_count s, failed_count s), s).

(** [json.loads(v)]: the argument must be a str. *)
Definition loads (v : json) : res json :=
  match v with
  | JStr s => json_loads s
  | _ => Raise (TypeError "the JSON object must be str, bytes or bytearray")
  end.

(** [unquote_plus(v)]: it starts with [v.replace], which only a str has. *)
Definition unquote_plus_value (v : json) : res string :=
  match v with
  | JStr s => Ok (unquote_plus s)
  | _ => Raise (AttributeError "replace")
  end.

(** Lines 23-29: the SQS body, the SNS message inside it, and the items the
    loop over [sns_message['Records']] visits. *)
Definition sns_records (record : json) : res (list json) :=
  (record_body <- getitem record "body" ;;
   message_body <- loads record_body ;;
   message <- getitem message_body "Message" ;;
   sns_message <- loads message ;;
   records <- getitem sns_message "Records" ;;
   iter records)%res.

(** Lines 31-34. *)
Definition s3_fields (s3_record : json) : res s3_event :=
  (s3 <- getitem s3_record "s3" ;;
   bucket <- getitem s3 "bucket" ;;
   name <- getitem bucket "name" ;;
   s3' <- getitem s3_record "s3" ;;
   object <- getitem s3' "object" ;;
   key <- getitem object "key" ;;
   decoded <- unquote_plus_value key ;;
   s3'' <- getitem s3_record "s3" ;;
   object' <- getitem s3'' "object" ;;
   size <- getitem object' "size" ;;
   time <- getitem s3_record "eventTime" ;;
   Ok {| source_bucket := name; object_key := decoded;
         object_size := size; event_time := time |})%res.

(** Lines 54-63: the [result] dict. *)
Definition result (ev : s3_event) (content_type last_modified : string)
    (processed_at : datetime) : json :=
  JObj [ ("source_bucket", source_bucket ev);
         ("object_key", JStr (object_key ev));
         ("object_size", object_size ev);
         ("content_type", JStr content_type);
         ("event_time", event_time ev);
         ("last_modified", JStr last_modified);
         ("processed_at", JStr (isoformat processed_at));
         ("status", JStr "processed") ].

(** Line 66: the stamp of a key, to the microsecond. *)
Definition timestamp (t : datetime) : string :=
  strftime t "%Y%m%d-%H%M%S-%f".

(** Line 67: the name of the result file. *)
Definition result_key (t : datetime) (key : string) : string :=
  "processed/" ++ timestamp t ++ "-" ++ replace "/" "_" key ++ ".json".

(** Lines 39-51: the metadata of the object, or the fallback pair when
    [head_object] raises. *)
Definition object_metadata (ev : s3_event) : M (string * string) :=
  try_except
    (response <- s3_head_object (source_bucket ev) (object_key ev) ;;
     ret (match ContentType response with
          | Some c => c
          | None => "unknown"
          end,
          match LastModified response with
          | Some t => isoformat t
          | None => ""
          end))%stmt
    (fun e =>
       (print (LogMetadataError e) ;;
        ret ("unknown", ""))%stmt).

(** Lines 30-78: the body of the loop over the S3 events of one message. *)
Definition process_s3_record (destination_bucket : string) (s3_record : json)
    : M unit :=
  (ev <- lift (s3_fields s3_record) ;;
   print (LogProcessing (source_bucket ev) (object_key ev)) ;;
   metadata <- object_metadata ev ;;
   processed_at <- datetime_utcnow ;;
   t <- datetime_utcnow ;;
   s3_put_object destination_bucket (result_key t (object_key ev))
     (json_dumps (Some 2)
        (result ev (fst metadata) (snd metadata) processed_at))
     "application/json" ;;
   print (LogStored destination_bucket (result_key t (object_key ev))) ;;
   incr_processed)%stmt.

(** Lines 21-83: the body of the loop over the SQS records, with its
    [try] and [except]. *)
Definition handle_record (destination_bucket : string) (record : json)
    : M unit :=
  try_except
    (s3_records <- lift (sns_records record) ;;
     for_each s3_records (process_s3_record destination_bucket))%stmt
    (fun e =>
       (print (LogRecordError e) ;;
        print (LogRecord record) ;;
        incr_failed)%stmt).

(** Lines 9-91.  [context] is not used. *)
Definition lambda_handler (event context : json) : M response :=
  (destination_bucket <- lift (environ_get environ "DESTINATION_BUCKET") ;;
   set_processed_count 0 ;;
   set_failed_count 0 ;;
   records <- lift (getitem event "Records") ;;
   items <- lift (iter records) ;;
   for_each items (handle_record destination_bucket) ;;
   counts <- get_counts ;;
   ret {| statusCode := 200;
          body := json_dumps None
                    (JObj [ ("processed", JInt (fst counts));
                            ("failed", JInt (snd counts)) ]) |})%stmt.

End Handler.

(** The state a fresh invocation starts from. *)
Definition initial {W : Type} (w : W) : state W :=
  {| world := w; trace := []; processed_count := 0; failed_count := 0 |}.

(** ** What a run records *)

Definition fetch_of (c : call) : list (json * string) :=
  match c with
  | HeadObject b k _ => [(b, k)]
  | _ => []
  end.

(** The metadata fetches attempted, in order: bucket and key. *)
Definition fetches (tr : list call) : list (json * string) :=
  flat_map fetch_of tr.

(** One attempted output write. *)
Record put_call : Type := {
  put_bucket : string;
  put_key : string;
  put_body : string;
  put_outcome : option exn
}.

Definition write_of (c : call) : list put_call :=
  match c with
  | PutObject b k text _ o =>
      [{| put_bucket := b; put_key := k; put_body := text; put_outcome := o |}]
  | _ => []
  end.

(** The output writes attempted, in order. *)
Definition writes (tr : list call) : list put_call :=
  flat_map write_of tr.

Definition read_of (c : call) : list datetime :=
  match c with
  | UtcNow t => [t]
  | _ => []
  end.

(** The clock reads, in order. *)
Definition clock_reads (tr : list call) : list datetime :=
  flat_map read_of tr.

(** The clock reads that stamp a key: those immediately followed by a
    write. *)
Fixpoint key_times (tr : list call) : list datetime :=
  match tr with
  | [] => []
  | c :: rest =>
      match c, rest with
      | UtcNow t, PutObject _ _ _ _ _ :: _ => t :: key_times rest
      | _, _ => key_times rest
      end
  end.

(** Every write of [tr] is made under a key built by [result_key] from
    the clock read just before it. *)
Definition stamped (tr : list call) : Prop :=
  Forall2 (fun t p => exists key, put_key p = result_key t key)
    (key_times tr) (writes tr).

Fixpoint distinct (l : list string) : bool :=
  match l with
  | [] => true
  | x :: rest => negb (existsb (String.eqb x) rest) && distinct rest
  end.

Section Observations.

Context {W : Type} {RT : Runtime W}.

(** The pair lines 45-51 leave in [content_type] and [last_modified]. *)
Definition metadata_of (hr : res head_response) : string * string :=
  match hr with
  | Ok response =>
      (match ContentType response with
       | Some c => c
       | None => "unknown"
       end,
       match LastModified response with
       | Some t => isoformat t
       | None => ""
       end)
  | Raise _ => ("unknown", "")
  end.

(** The calls one pass through lines 36-77 makes, given what the fetch,
    the two clock reads and the write answered. *)
Definition event_calls (dst : string) (ev : s3_event)
    (hr : res head_response) (t1 t2 : datetime) (o : option exn) : list call :=
  [ Print (LogProcessing (source_bucket ev) (object_key ev));
    HeadObject (source_bucket ev) (object_key ev) hr ]
  ++ match hr with
     | Raise e => [Print (LogMetadataError e)]
     | Ok _ => []
     end
  ++ [ UtcNow t1; UtcNow t2;
       PutObject dst (result_key t2 (object_key ev))
         (json_dumps (Some 2)
            (result ev (fst (metadata_of hr)) (snd (metadata_of hr)) t1))
         "application/json" o ]
  ++ match o with
     | None => [Print (LogStored dst (result_key t2 (object_key ev)))]
     | Some _ => []
     end.

(** Lines 36-78 for an event whose fields were read, in one piece. *)
Definition event_run (dst : string) (ev : s3_event) (s : state W)
    : res unit * state W :=
  let (hr, w1) := head_object (source_bucket ev) (object_key ev) (world s) in
  let (t1, w2) := utcnow w1 in
  let (t2, w3) := utcnow w2 in
  let (o, w4) :=
    put_object dst (result_key t2 (object_key ev))
      (json_dumps (Some 2)
         (result ev (fst (metadata_of hr)) (snd (metadata_of hr)) t1))
      "application/json" w3 in
  (match o with
   | None => Ok tt
   | Some e => Raise e
   end,
   {| world := w4;
      trace := trace s ++ event_calls dst ev hr t1 t2 o;
      processed_count := match o with
                         | None => processed_count s + 1
                         | Some _ => processed_count s
                         end;
      failed_count := failed_count s |}).

(** The state lines 81-83 leave when they catch [e] in state [s]. *)
Definition after_except (e : exn) (record : json) (s : state W) : state W :=
  {| world := world s;
     trace := trace s ++ [Print (LogRecordError e); Print (LogRecord record)];
     processed_count := processed_count s;
     failed_count := failed_count s + 1 |}.

(** [s3_record['s3']['object']['key']], the key as the event carries it. *)
Definition raw_key (s3_record : json) : res json :=
  (s3 <- getitem s3_record "s3" ;;
   object <- getitem s3 "object" ;;
   getitem object "key")%res.

(** The ways lines 23-29 fail on an SQS record: no [body], a body that
    is not JSON, no [Message] in it, a message that is not JSON, no
    [Records] in it. *)
Inductive malformed (record : json) : exn -> Prop :=
| body_missing e :
    getitem record "body" = Raise e ->
    malformed record e
| body_not_json text e :
    getitem record "body" = Ok (JStr text) ->
    json_loads text = Raise e ->
    malformed record e
| message_missing text message_body e :
    getitem record "body" = Ok (JStr text) ->
    json_loads text = Ok message_body ->
    getitem message_body "Message" = Raise e ->
    malformed record e
| message_not_json text message_body message e :
    getitem record "body" = Ok (JStr text) ->
    json_loads text = Ok message_body ->
    getitem message_body "Message" = Ok (JStr message) ->
    json_loads message = Raise e ->
    malformed record e
| records_missing text message_body message sns_message e :
    getitem record "body" = Ok (JStr text) ->
    json_loads text = Ok message_body ->
    getitem message_body "Message" = Ok (JStr message) ->
    json_loads message = Ok sns_message ->
    getitem sns_message "Records" = Raise e ->
    malformed record e.

(** The S3 events of an SQS record, when its two layers decode. *)
Definition events_of (record : json) : list json :=
  match sns_records record with
  | Ok items => items
  | Raise _ => []
  end.

Definition event_ok (s3_record : json) : bool :=
  match s3_fields s3_record with
  | Ok _ => true
  | Raise _ => false
  end.

(** A well-formed SQS record: both layers decode and every S3 event has
    the four fields, the key being a str. *)
Definition well_formed (record : json) : bool :=
  match sns_records record with
  | Ok items => forallb event_ok items
  | Raise _ => false
  end.

Definition decoded (items : list json) : list s3_event :=
  flat_map (fun r => match s3_fields r with
                     | Ok ev => [ev]
                     | Raise _ => []
                     end) items.

Fixpoint total_events (records : list json) : nat :=
  match records with
  | [] => 0
  | record :: rest => List.length (events_of record) + total_events rest
  end.

(** [p] is a write of the result of [ev] into [dst]. *)
Definition write_for (dst : string) (ev : s3_event) (p : put_call) : Prop :=
  put_bucket p = dst /\
  exists t1 t2 content_type last_modified,
    put_key p = result_key t2 (object_key ev) /\
    put_body p =
      json_dumps (Some 2) (result ev content_type last_modified t1).

(** In [tr], each event of [evs], in order, has one attempted fetch, for
    its bucket and decoded key, and one attempted write, of its result,
    and there is no other fetch or write. *)
Definition one_fetch_one_write (dst : string) (evs : list s3_event)
    (tr : list call) : Prop :=
  fetches tr = map (fun ev => (source_bucket ev, object_key ev)) evs /\
  Forall2 (write_for dst) evs (writes tr).

(** The calls [new] of one event write its result under a key stamped
    with the time the result itself carries as [processed_at], the first
    clock read. *)
Definition key_stamped_by_record_time (dst : string) (ev : s3_event)
    (new : list call) : Prop :=
  exists t later content_type last_modified o,
    clock_reads new = t :: later /\
    writes new =
      [{| put_bucket := dst;
          put_key := result_key t (object_key ev);
          put_body := json_dumps (Some 2)
                        (result ev content_type last_modified t);
          put_outcome := o |}].

(** The loop over [items] from [s] ends at a write that raises while
    events are left. *)
Definition write_fails_midway (dst : string) (items : list json) (s : state W)
    : Prop :=
  exists pre r post ev e s1 s2,
    items = (pre ++ r :: post)%list /\ post <> [] /\
    for_each pre (process_s3_record dst) s = (Ok tt, s1) /\
    s3_fields r = Ok ev /\
    event_run dst ev s1 = (Raise e, s2).

(** Some SQS record of the batch, processed in order from [s], has a write
    that fails midway. *)
Fixpoint some_write_fails_midway (dst : string) (records : list json)
    (s : state W) : Prop :=
  match records with
  | [] => False
  | record :: rest =>
      write_fails_midway dst (events_of record) s \/
      some_write_fails_midway dst rest (snd (handle_record dst record s))
  end.

(** [s'] has the calls of [s] and then some. *)
Definition extends (s s' : state W) : Prop :=
  exists new, trace s' = (trace s ++ new)%list.

(** The response of line 85 for the counters of [s]. *)
Definition response_of (s : state W) : response :=
  {| statusCode := 200;
     body := json_dumps None
               (JObj [ ("processed", JInt (processed_count s));
                       ("failed", JInt (failed_count s)) ]) |}.

End Observations.

(** ** More of what a run records *)

(** Does [c] occur in [s]? *)
Fixpoint occurs (c : ascii) (s : string) : bool :=
  match s with
  | EmptyString => false
  | String x rest => Ascii.eqb x c || occurs c rest
  end.

Definition is_done (p : put_call) : bool :=
  match put_outcome p with
  | None => true
  | Some _ => false
  end.

(** The writes that were done. *)
Definition done_writes (tr : list call) : list put_call :=
  filter is_done (writes tr).

(** The writes that raised. *)
Definition failed_writes (tr : list call) : list put_call :=
  filter (fun p => negb (is_done p)) (writes tr).

Definition error_of (c : call) : list exn :=
  match c with
  | Print (LogRecordError e) => [e]
  | _ => []
  end.

(** The errors printed by line 81, in order. *)
Definition record_errors (tr : list call) : list exn :=
  flat_map error_of tr.

Definition dump_of (c : call) : list json :=
  match c with
  | Print (LogRecord record) => [record]
  | _ => []
  end.

(** The records printed by line 82, in order. *)
Definition record_dumps (tr : list call) : list json :=
  flat_map dump_of tr.

(** A [put_object] call, if [c] is one, goes to the bucket [dst] with the
    JSON media type. *)
Definition put_to (dst : string) (c : call) : Prop :=
  match c with
  | PutObject b _ _ ctype _ => b = dst /\ ctype = "application/json"
  | _ => True
  end.

Section MoreObservations.

Context {W : Type} {RT : Runtime W}.

(** The S3 events of a batch, record after record. *)
Definition all_events (records : list json) : list json :=
  flat_map events_of records.

(** A statement run from [s] with outcome [r] and from [s'] with outcome
    [r'] has had the same effect: the same result, the same world left,
    the same calls added and the same growth of the two counters. *)
Definition same_effect {A : Type} (r r' : res A * state W) (s s' : state W)
    : Prop :=
  fst r = fst r' /\
  world (snd r) = world (snd r') /\
  (processed_count (snd r) - processed_count s
   = processed_count (snd r') - processed_count s')%Z /\
  (failed_count (snd r) - failed_count s
   = failed_count (snd r') - failed_count s')%Z /\
  exists new,
    trace (snd r) = (trace s ++ new)%list /\
    trace (snd r') = (trace s' ++ new)%list.

End MoreObservations.

(** ** A json module and a world to run the handler in

    [Json.dumps] writes, as [json.dumps] does, the documents made of null,
    booleans, integers, strings of printable ASCII, lists and dicts, and
    [Json.loads] reads such texts back, with white space between tokens
    and the escapes of the quote, the backslash and the slash.  [Sim] is a
    world with a catalogue of source objects, a clock and a script of
    write failures.  The closed runs at the end use them; the properties
    of the handler hold for any [Runtime]. *)

Module Json.

Definition quote : ascii := ascii_of_nat 34.
Definition backslash : ascii := ascii_of_nat 92.
Definition newline : ascii := ascii_of_nat 10.

Definition is_ws (c : ascii) : bool :=
  Ascii.eqb c " " || Ascii.eqb c newline
  || Ascii.eqb c (ascii_of_nat 9) || Ascii.eqb c (ascii_of_nat 13).

Definition is_digit (c : ascii) : bool :=
  ((48 <=? nat_of_ascii c) && (nat_of_ascii c <=? 57))%nat.

Fixpoint skip_ws (s : string) : string :=
  match s with
  | EmptyString => EmptyString
  | String c rest => if is_ws c then skip_ws rest else s
  end.

(** The characters of a string literal after its opening quote, and what
    follows the closing quote. *)
Fixpoint read_string (s : string) : option (string * string) :=
  match s with
  | EmptyString => None
  | String c rest =>
      if Ascii.eqb c quote then Some (EmptyString, rest)
      else if Ascii.eqb c backslash then
        match rest with
        | String e rest' =>
            if Ascii.eqb e quote || Ascii.eqb e backslash || Ascii.eqb e "/" then
              match read_string rest' with
              | Some (str, after) => Some (String e str, after)
              | None => None
              end
            else None
        | EmptyString => None
        end
      else
        match read_string rest with
        | Some (str, after) => Some (String c str, after)
        | None => None
        end
  end.

Fixpoint read_digits (acc : Z) (s : string) : Z * string :=
  match s with
  | EmptyString => (acc, s)
  | String c rest =>
      if is_digit c
      then read_digits (10 * acc + Z.of_nat (nat_of_ascii c - 48)) rest
      else (acc, s)
  end.

Definition read_literal (word : string) (v : json) (s : string)
    : option (json * string) :=
  if String.prefix word s
  then Some (v, substring (String.length word)
                          (String.length s - String.length word) s)
  else None.

Fixpoint read_value (fuel : nat) (s : string) {struct fuel}
    : option (json * string) :=
  match fuel with
  | O => None
  | S fuel' =>
      match skip_ws s with
      | EmptyString => None
      | String c rest =>
          if Ascii.eqb c quote then
            match read_string rest with
            | Some (str, after) => Some (JStr str, after)
            | None => None
            end
          else if Ascii.eqb c "[" then
            match skip_ws rest with
            | String d after =>
                if Ascii.eqb d "]" then Some (JArr [], after)
                else
                  match read_items fuel' rest with
                  | Some (items, after') => Some (JArr items, after')
                  | None => None
                  end
            | EmptyString => None
            end
          else if Ascii.eqb c "{" then
            match skip_ws rest with
            | String d after =>
                if Ascii.eqb d "}" then Some (JObj [], after)
                else
                  match read_members fuel' rest with
                  | Some (members, after') => Some (JObj members, after')
                  | None => None
                  end
            | EmptyString => None
            end
          else if Ascii.eqb c "-" then
            match rest with
            | String d _ =>
                if is_digit d
                then let (n, after) := read_digits 0 rest in Some (JInt (- n), after)
                else None
            | EmptyString => None
            end
          else if is_digit c then
            let (n, after) := read_digits 0 (String c rest) in Some (JInt n, after)
          else if Ascii.eqb c "n" then read_literal "null" JNull (String c rest)
          else if Ascii.eqb c "t" then read_literal "true" (JBool true) (String c rest)
          else if Ascii.eqb c "f" then read_literal "false" (JBool false) (String c rest)
          else None
      end
  end
with read_items (fuel : nat) (s : string) {struct fuel}
    : option (list json * string) :=
  match fuel with
  | O => None
  | S fuel' =>
      match read_value fuel' s with
      | Some (v, after) =>
          match skip_ws after with
          | String c rest =>
              if Ascii.eqb c "]" then Some ([v], rest)
              else if Ascii.eqb c "," then
                match read_items fuel' rest with
                | Some (vs, after') => Some (v :: vs, after')
                | None => None
                end
              else None
          | EmptyString => None
          end
      | None => None
      end
  end
with read_members (fuel : nat) (s : string) {struct fuel}
    : option (list (string * json) * string) :=
  match fuel with
  | O => None
  | S fuel' =>
      match skip_ws s with
      | String q rest =>
          if Ascii.eqb q quote then
            match read_string rest with
            | Some (k, after) =>
                match skip_ws after with
                | String colon after' =>
                    if Ascii.eqb colon ":" then
                      match read_value fuel' after' with
                      | Some (v, after'') =>
                          match skip_ws after'' with
                          | String c rest' =>
                              if Ascii.eqb c "}" then Some ([(k, v)], rest')
                              else if Ascii.eqb c "," then
                                match read_members fuel' rest' with
                                | Some (kvs, final) => Some ((k, v) :: kvs, final)
                                | None => None
                                end
                              else None
                          | EmptyString => None
                          end
                      | None => None
                      end
                    else None
                | EmptyString => None
                end
            | None => None
            end
          else None
      | EmptyString => None
      end
  end.

Definition loads (s : string) : res json :=
  match read_value (2 * String.length s + 2) s with
  | Some (v, after) =>
      match skip_ws after with
      | EmptyString => Ok v
      | _ => Raise (JSONDecodeError "Extra data")
      end
  | None => Raise (JSONDecodeError "Expecting value")
  end.

Fixpoint escape (s : string) : string :=
  match s with
  | EmptyString => EmptyString
  | String c rest =>
      if Ascii.eqb c quote || Ascii.eqb c backslash
      then String backslash (String c (escape rest))
      else String c (escape rest)
  end.

Definition write_string (s : string) : string :=
  String quote (escape s ++ String quote EmptyString).

Definition write_int (n : Z) : string :=
  DecimalString.NilZero.string_of_int (Z.to_int n).

Fixpoint spaces (n : nat) : string :=
  match n with
  | O => EmptyString
  | S n' => String " " (spaces n')
  end.

(** The break before an item at nesting [depth]: nothing without
    [indent], a new line and the indentation with it. *)
Definition break (indent : option nat) (depth : nat) : string :=
  match indent with
  | None => EmptyString
  | Some n => String newline (spaces (n * depth))
  end.

Definition item_separator (indent : option nat) : string :=
  match indent with
  | None => ", "
  | Some _ => ","
  end.

Fixpoint write (indent : option nat) (depth : nat) (v : json) : string :=
  match v with
  | JNull => "null"
  | JBool true => "true"
  | JBool false => "false"
  | JInt n => write_int n
  | JFloat _ => "NaN"
  | JStr s => write_string s
  | JArr [] => "[]"
  | JArr (first :: others) =>
      "[" ++ break indent (S depth) ++ write indent (S depth) first
      ++ (fix rest (l : list json) : string :=
            match l with
            | [] => EmptyString
            | x :: l' =>
                item_separator indent ++ break indent (S depth)
                ++ write indent (S depth) x ++ rest l'
            end) others
      ++ break indent depth ++ "]"
  | JObj [] => "{}"
  | JObj ((k, x) :: others) =>
      "{" ++ break indent (S depth) ++ write_string k ++ ": "
      ++ write indent (S depth) x
      ++ (fix rest (l : list (string * json)) : string :=
            match l with
            | [] => EmptyString
            | (k', x') :: l' =>
                item_separator indent ++ break indent (S depth)
                ++ write_string k' ++ ": " ++ write indent (S depth) x'
                ++ rest l'
            end) others
      ++ break indent depth ++ "}"
  end.

Definition dumps (indent : option nat) (v : json) : string :=
  write indent 0 v.

End Json.

Module Sim.

(** The source objects (bucket, key, metadata), the clock in microseconds
    since 2024-01-01T00:00:00, how far a clock read moves it, which
    [put_object] calls raise (counted from 0), and the objects written so
    far (bucket, key, body). *)
Record world : Type := {
  objects : list (string * string * head_response);
  clock : N;
  tick : N;
  failing_writes : list nat;
  attempts : nat;
  stored : list (string * string * string)
}.

Definition datetime_of (us : N) : datetime :=
  {| year := 2024; month := 1; day := 1 + (us / 86400000000) mod 31;
     hour := (us / 3600000000) mod 24; minute := (us / 60000000) mod 60;
     second := (us / 1000000) mod 60; microsecond := us mod 1000000;
     tzinfo := None |}%N.

Fixpoint find_object (l : list (string * string * head_response))
    (bucket key : string) : res head_response :=
  match l with
  | [] => Raise (ClientError "404")
  | (b, k, r) :: rest =>
      if String.eqb b bucket && String.eqb k key then Ok r
      else find_object rest bucket key
  end.

Definition head (Bucket : json) (Key : string) (w : world)
    : res head_response * world :=
  (match Bucket with
   | JStr b => find_object (objects w) b Key
   | _ => Raise (OtherException "ParamValidationError")
   end, w).

Definition put (Bucket Key Body CType : string) (w : world)
    : option exn * world :=
  if existsb (Nat.eqb (attempts w)) (failing_writes w)
  then (Some (ClientError "AccessDenied"),
        {| objects := objects w; clock := clock w; tick := tick w;
           failing_writes := failing_writes w; attempts := S (attempts w);
           stored := stored w |})
  else (None,
        {| objects := objects w; clock := clock w; tick := tick w;
           failing_writes := failing_writes w; attempts := S (attempts w);
           stored := stored w ++ [(Bucket, Key, Body)] |}).

Definition now (w : world) : datetime * world :=
  (datetime_of (clock w),
   {| objects := objects w; clock := clock w + tick w; tick := tick w;
      failing_writes := failing_writes w; attempts := attempts w;
      stored := stored w |}).

Definition runtime : Runtime world :=
  {| head_object := head;
     put_object := put;
     utcnow := now;
     json_loads := Json.loads;
     json_dumps := Json.dumps;
     environ := [("DESTINATION_BUCKET", "dstbkt")] |}.

(** A world with the given objects, clock step and failing writes. *)
Definition start (objs : list (string * string * head_response)) (step : N)
    (failing : list nat) : world :=
  {| objects := objs; clock := 0; tick := step; failing_writes := failing;
     attempts := 0; stored := [] |}.

(** One S3 event of a notification. *)
Definition s3_record (bucket key : string) (size : Z) (time : string) : json :=
  JObj [ ("eventName", JStr "ObjectCreated:Put");
         ("eventTime", JStr time);
         ("s3", JObj [ ("bucket", JObj [("name", JStr bucket)]);
                       ("object", JObj [("key", JStr key); ("size", JInt size)]) ]) ].

(** The SQS record whose body is the SNS notification that carries
    [events] as its message. *)
Definition envelope (events : list json) : json :=
  JObj [ ("messageId", JStr "m-1");
         ("body",
          JStr (Json.dumps None
                  (JObj [ ("Type", JStr "Notification");
                          ("Message",
                           JStr (Json.dumps None
                                   (JObj [("Records", JArr events)]))) ]))) ].

(** An SQS record whose body is not JSON. *)
Definition broken_envelope : json :=
  JObj [ ("messageId", JStr "m-2"); ("body", JStr "not json") ].

Definition batch (records : list json) : json :=
  JObj [("Records", JArr records)].

Definition png : head_response :=
  {| ContentType := Some "image/png";
     LastModified := Some {| year := 2024; month := 1; day := 1; hour := 0;
                             minute := 0; second := 0; microsecond := 0;
                             tzinfo := Some 0%Z |} |}.

(** Events used in the closed runs. *)
Definition cat : json :=
  s3_record "srcbkt" "photos/cat.png" 2048 "2024-01-01T00:00:00.000Z".

Definition dog : json :=
  s3_record "srcbkt" "my+dog%2Bbone.png" 1024 "2024-01-01T00:00:01.000Z".

Definition bird : json :=
  s3_record "srcbkt" "bird.png" 512 "2024-01-01T00:00:02.000Z".

End Sim.

Module Sim2.

(** An S3 event without [eventTime]. *)
Definition no_time : json :=
  JObj [ ("eventName", JStr "ObjectCreated:Put");
         ("s3", JObj [ ("bucket", JObj [("name", JStr "srcbkt")]);
                       ("object", JObj [("key", JStr "late.png");
                                        ("size", JInt 7)]) ]) ].

(** A response without a content type and without a date. *)
Definition bare : head_response :=
  {| ContentType := None; LastModified := None |}.

End Sim2.

(** ** Properties of the handler *)

Open Scope list_scope.

(** *** Strings *)

Lemma string_app_nil_r (a : string) : (a ++ "")%string = a.
Proof. induction a as [| c a IH]; simpl; [| rewrite IH]; reflexivity. Qed.

Lemma string_app_assoc (a b c : string) :
  ((a ++ b) ++ c)%string = (a ++ (b ++ c))%string.
Proof. induction a as [| x a IH]; simpl; [| rewrite IH]; reflexivity. Qed.

Lemma string_length_app (a b : string) :
  String.length (a ++ b) = String.length a + String.length b.
Proof. induction a as [| x a IH]; simpl; [| rewrite IH]; reflexivity. Qed.

(** Two concatenations that agree and start with pieces of the same
    length agree piece by piece. *)
Lemma string_app_inj (a a' b b' : string) :
  String.length a = String.length a' ->
  (a ++ b)%string = (a' ++ b')%string ->
  a = a' /\ b = b'.
Proof.
  revert a'. induction a as [| x a IH]; intros [| x' a'] L H;
    try discriminate L.
  - split; [reflexivity | exact H].
  - simpl in *. inversion H; subst. injection L as L.
    destruct (IH a' L H2) as [-> ->]. split; reflexivity.
Qed.

Lemma zero_pad_length (width : nat) (n : N) :
  String.length (zero_pad width n) = width.
Proof.
  revert n. induction width as [| w IH]; intro n; [reflexivity |].
  simpl. rewrite string_length_app, IH. simpl. lia.
Qed.

(** *** Timestamps *)

Lemma timestamp_format (t : datetime) :
  timestamp t =
  (zero_pad 4 (year t) ++ zero_pad 2 (month t) ++ zero_pad 2 (day t) ++ "-"
   ++ zero_pad 2 (hour t) ++ zero_pad 2 (minute t) ++ zero_pad 2 (second t)
   ++ "-" ++ zero_pad 6 (microsecond t))%string.
Proof.
  unfold timestamp. cbn [strftime Ascii.eqb Bool.eqb directive].
  rewrite string_app_nil_r. reflexivity.
Qed.

(** On numbers that fit the width, zero padding loses nothing. *)
Lemma zero_pad_inj (width : nat) (n m : N) :
  (n < 10 ^ N.of_nat width)%N -> (m < 10 ^ N.of_nat width)%N ->
  zero_pad width n = zero_pad width m -> n = m.
Proof.
  revert n m. induction width as [| w IH]; intros n m Hn Hm H.
  - simpl in Hn, Hm. lia.
  - rewrite Nat2N.inj_succ, N.pow_succ_r' in Hn, Hm.
    simpl in H. apply string_app_inj in H; [| rewrite !zero_pad_length; reflexivity].
    destruct H as [Hq Hr]. injection Hr as Hr.
    apply IH in Hq; try (apply N.Div0.div_lt_upper_bound; assumption).
    unfold digit in Hr. apply (f_equal N_of_ascii) in Hr.
    assert (Bn : (n mod 10 < 10)%N) by (apply N.mod_lt; lia).
    assert (Bm : (m mod 10 < 10)%N) by (apply N.mod_lt; lia).
    rewrite !N_ascii_embedding in Hr by lia.
    rewrite (N.div_mod n 10), (N.div_mod m 10) by lia. lia.
Qed.

Ltac split_pad H x :=
  apply string_app_inj in H; [| rewrite !zero_pad_length; reflexivity];
  destruct H as [x H].

(** Two naive clock reads in range that print as the same timestamp are
    the same read. *)
Lemma timestamp_inj (t t' : datetime) :
  in_range t -> in_range t' -> tzinfo t = tzinfo t' ->
  timestamp t = timestamp t' -> t = t'.
Proof.
  intros (Y & Mo & D & H & Mi & S & U) (Y' & Mo' & D' & H' & Mi' & S' & U') Tz E.
  rewrite !timestamp_format in E.
  split_pad E Ey. split_pad E Em. split_pad E Ed.
  apply (string_app_inj "-" "-") in E; [| reflexivity]. destruct E as [_ E].
  split_pad E Eh. split_pad E Ei. split_pad E Es.
  apply (string_app_inj "-" "-") in E; [| reflexivity]. destruct E as [_ E].
  apply (zero_pad_inj 4) in Ey; [| assumption | assumption].
  apply (zero_pad_inj 2) in Em; [| assumption | assumption].
  apply (zero_pad_inj 2) in Ed; [| assumption | assumption].
  apply (zero_pad_inj 2) in Eh; [| assumption | assumption].
  apply (zero_pad_inj 2) in Ei; [| assumption | assumption].
  apply (zero_pad_inj 2) in Es; [| assumption | assumption].
  apply (zero_pad_inj 6) in E; [| assumption | assumption].
  destruct t, t'; simpl in *; subst; reflexivity.
Qed.

(** *** Decoding keys *)

Lemma replace_app (old new : ascii) (a b : string) :
  replace old new (a ++ b) = (replace old new a ++ replace old new b)%string.
Proof. induction a as [| c a IH]; simpl; [| rewrite IH]; reflexivity. Qed.

Lemma unquote_quote_char (c : ascii) (rest : string) :
  unquote (replace "+" " " (quote_char c) ++ rest) = String c (unquote rest).
Proof.
  destruct c as [[] [] [] [] [] [] [] []]; reflexivity.
Qed.

(** [unquote_plus] gives back every key that [quote_plus] encoded. *)
Lemma unquote_plus_quote_plus (key : string) :
  unquote_plus (quote_plus key) = key.
Proof.
  unfold unquote_plus. induction key as [| c key IH]; [reflexivity |].
  simpl quote_plus. rewrite replace_app, unquote_quote_char, IH. reflexivity.
Qed.

Lemma distinct_NoDup (l : list string) : distinct l = true -> NoDup l.
Proof.
  induction l as [| x l IH]; intro H; [constructor |].
  simpl in H. apply andb_true_iff in H. destruct H as [Hx Hl].
  constructor; [| apply IH; exact Hl].
  intro Hin. apply negb_true_iff in Hx.
  assert (E : existsb (String.eqb x) l = true).
  { apply existsb_exists. exists x. split; [exact Hin | apply String.eqb_refl]. }
  rewrite E in Hx. discriminate Hx.
Qed.

Section Properties.

Context {W : Type} {RT : Runtime W}.

(** *** One S3 event *)

Lemma process_s3_record_run (dst : string) (r : json) (s : state W) :
  process_s3_record dst r s =
  match s3_fields r with
  | Ok ev => event_run dst ev s
  | Raise e => (Raise e, s)
  end.
Proof.
  unfold process_s3_record, bind, lift.
  destruct (s3_fields r) as [ev | e]; [| reflexivity].
  unfold event_run, object_metadata, try_except, bind, s3_head_object,
    datetime_utcnow, s3_put_object, print, incr_processed,
    set_processed_count, record_call, ret; simpl.
  destruct (head_object (source_bucket ev) (object_key ev) (world s)) as [hr w1].
  destruct hr as [response | e]; simpl;
    destruct (utcnow w1) as [t1 w2]; simpl;
    destruct (utcnow w2) as [t2 w3]; simpl;
    match goal with
    | |- context [put_object ?a ?b ?c ?d ?w] =>
        destruct (put_object a b c d w) as [o w4]
    end;
    destruct o; simpl; unfold event_calls; simpl;
    repeat rewrite <- app_assoc; reflexivity.
Qed.

Lemma process_s3_record_run_ok (dst : string) (r : json) (ev : s3_event)
    (s : state W) :
  s3_fields r = Ok ev -> process_s3_record dst r s = event_run dst ev s.
Proof. intro H. rewrite process_s3_record_run, H. reflexivity. Qed.

Lemma event_run_cases (dst : string) (ev : s3_event) (s : state W) :
  exists hr t1 t2 o w',
    fst (head_object (source_bucket ev) (object_key ev) (world s)) = hr /\
    event_run dst ev s =
      (match o with
       | None => Ok tt
       | Some e => Raise e
       end,
       {| world := w';
          trace := trace s ++ event_calls dst ev hr t1 t2 o;
          processed_count := match o with
                             | None => processed_count s + 1
                             | Some _ => processed_count s
                             end;
          failed_count := failed_count s |}).
Proof.
  unfold event_run.
  destruct (head_object (source_bucket ev) (object_key ev) (world s)) as [hr w1].
  destruct (utcnow w1) as [t1 w2].
  destruct (utcnow w2) as [t2 w3].
  match goal with
  | |- context [put_object ?a ?b ?c ?d ?w] =>
      destruct (put_object a b c d w) as [o w4]
  end.
  exists hr, t1, t2, o, w4. split; reflexivity.
Qed.

Lemma fetches_app (tr1 tr2 : list call) :
  fetches (tr1 ++ tr2) = fetches tr1 ++ fetches tr2.
Proof. apply flat_map_app. Qed.

Lemma writes_app (tr1 tr2 : list call) :
  writes (tr1 ++ tr2) = writes tr1 ++ writes tr2.
Proof. apply flat_map_app. Qed.

Lemma fetches_event_calls dst ev hr t1 t2 o :
  fetches (event_calls dst ev hr t1 t2 o) = [(source_bucket ev, object_key ev)].
Proof. destruct hr, o; reflexivity. Qed.

Lemma writes_event_calls dst ev hr t1 t2 o :
  writes (event_calls dst ev hr t1 t2 o) =
  [{| put_bucket := dst;
      put_key := result_key t2 (object_key ev);
      put_body := json_dumps (Some 2)
                    (result ev (fst (metadata_of hr)) (snd (metadata_of hr)) t1);
      put_outcome := o |}].
Proof. destruct hr, o; reflexivity. Qed.

Lemma event_calls_one_fetch_one_write dst ev hr t1 t2 o :
  one_fetch_one_write dst [ev] (event_calls dst ev hr t1 t2 o).
Proof.
  split.
  - apply fetches_event_calls.
  - rewrite writes_event_calls. constructor; [| constructor].
    split; [reflexivity |].
    exists t1, t2, (fst (metadata_of hr)), (snd (metadata_of hr)).
    split; reflexivity.
Qed.

Lemma one_fetch_one_write_app dst evs1 evs2 tr1 tr2 :
  one_fetch_one_write dst evs1 tr1 ->
  one_fetch_one_write dst evs2 tr2 ->
  one_fetch_one_write dst (evs1 ++ evs2) (tr1 ++ tr2).
Proof.
  intros [F1 W1] [F2 W2]. split.
  - rewrite fetches_app, map_app, F1, F2. reflexivity.
  - rewrite writes_app. apply Forall2_app; assumption.
Qed.

Lemma one_fetch_one_write_prints dst evs tr e record :
  one_fetch_one_write dst evs tr ->
  one_fetch_one_write dst evs
    (tr ++ [Print (LogRecordError e); Print (LogRecord record)]).
Proof.
  intros [F X]. split.
  - rewrite fetches_app, F. simpl. apply app_nil_r.
  - rewrite writes_app. simpl. rewrite app_nil_r. exact X.
Qed.

(** *** The loop over the S3 events of one message *)

Lemma for_each_cons {A} (x : A) (rest : list A) (f : A -> M unit) (s : state W) :
  for_each (x :: rest) f s =
  match f x s with
  | (Ok _, s') => for_each rest f s'
  | (Raise e, s') => (Raise e, s')
  end.
Proof. reflexivity. Qed.

Lemma for_each_app {A} (pre post : list A) (f : A -> M unit) (s : state W) :
  for_each (pre ++ post) f s =
  match for_each pre f s with
  | (Ok _, s') => for_each post f s'
  | (Raise e, s') => (Raise e, s')
  end.
Proof.
  revert s. induction pre as [| x pre IH]; intro s.
  - reflexivity.
  - simpl app. rewrite !for_each_cons.
    destruct (f x s) as [[[] | e] s']; [apply IH | reflexivity].
Qed.

(** A loop that raises stopped at one item, after the items before it had
    all been done. *)
Lemma for_each_raise {A} (items : list A) (f : A -> M unit) (s s' : state W) e :
  for_each items f s = (Raise e, s') ->
  exists pre x post s1,
    items = pre ++ x :: post /\
    for_each pre f s = (Ok tt, s1) /\
    f x s1 = (Raise e, s').
Proof.
  revert s. induction items as [| x items IH]; intros s H.
  - discriminate H.
  - rewrite for_each_cons in H.
    destruct (f x s) as [[[] | e0] s0] eqn:E.
    + destruct (IH _ H) as (pre & y & post & s1 & -> & Hpre & Hy).
      exists (x :: pre), y, post, s1. split; [reflexivity |].
      split; [| exact Hy].
      rewrite for_each_cons, E. exact Hpre.
    + inversion H; subst.
      exists [], x, items, s. repeat split; assumption.
Qed.

(** A loop over the S3 events that ends normally has read the fields of
    every event and has made one fetch and one write for each, every
    write done. *)
Lemma events_loop_ok (dst : string) (items : list json) (s s' : state W) :
  for_each items (process_s3_record dst) s = (Ok tt, s') ->
  processed_count s' = (processed_count s + Z.of_nat (List.length items))%Z /\
  failed_count s' = failed_count s /\
  exists evs tr,
    Forall2 (fun r ev => s3_fields r = Ok ev) items evs /\
    trace s' = trace s ++ tr /\
    one_fetch_one_write dst evs tr /\
    Forall (fun p => put_outcome p = None) (writes tr).
Proof.
  revert s. induction items as [| r items IH]; intros s H.
  - inversion H; subst. split; [simpl; lia |]. split; [reflexivity |].
    exists [], []. repeat split; try constructor. symmetry; apply app_nil_r.
  - rewrite for_each_cons, process_s3_record_run in H.
    destruct (s3_fields r) as [ev | e] eqn:Er; [| discriminate H].
    destruct (event_run_cases dst ev s) as (hr & t1 & t2 & o & w' & _ & E).
    rewrite E in H. destruct o as [e |]; [discriminate H |].
    apply IH in H. simpl in H.
    destruct H as (P & F & evs & tr & D & T & O & A).
    split; [rewrite P; simpl List.length; lia |]. split; [exact F |].
    exists (ev :: evs), (event_calls dst ev hr t1 t2 None ++ tr).
    split; [constructor; assumption |].
    split; [rewrite T, app_assoc; reflexivity |].
    split.
    + apply (one_fetch_one_write_app dst [ev] evs);
        [apply event_calls_one_fetch_one_write | exact O].
    + rewrite writes_app, writes_event_calls. constructor; [reflexivity | exact A].
Qed.

(** Whatever the loop over the S3 events does, it leaves the failed count
    alone. *)
Lemma events_loop_failed_count (dst : string) (items : list json)
    (s : state W) :
  failed_count (snd (for_each items (process_s3_record dst) s)) = failed_count s.
Proof.
  revert s. induction items as [| r items IH]; intro s; [reflexivity |].
  rewrite for_each_cons, process_s3_record_run.
  destruct (s3_fields r) as [ev | e]; [| reflexivity].
  destruct (event_run_cases dst ev s) as (hr & t1 & t2 & o & w' & _ & E).
  rewrite E. destruct o as [e |]; [reflexivity |].
  rewrite IH. reflexivity.
Qed.

(** *** One SQS record *)

Lemma handle_record_run (dst : string) (record : json) (s : state W) :
  handle_record dst record s =
  match sns_records record with
  | Raise e => (Ok tt, after_except e record s)
  | Ok items =>
      match for_each items (process_s3_record dst) s with
      | (Ok _, s1) => (Ok tt, s1)
      | (Raise e, s1) => (Ok tt, after_except e record s1)
      end
  end.
Proof.
  unfold handle_record, try_except, bind, lift.
  destruct (sns_records record) as [items | e].
  - destruct (for_each items (process_s3_record dst) s) as [[[] | e] s1];
      [reflexivity |].
    unfold print, incr_failed, set_failed_count, record_call, after_except;
      simpl.
    rewrite <- app_assoc. reflexivity.
  - unfold print, incr_failed, set_failed_count, record_call, after_except; simpl.
    rewrite <- app_assoc. reflexivity.
Qed.

Lemma handle_record_returns (dst : string) (record : json) (s : state W) :
  exists s', handle_record dst record s = (Ok tt, s').
Proof.
  rewrite handle_record_run.
  destruct (sns_records record) as [items | e]; [| eexists; reflexivity].
  destruct (for_each items (process_s3_record dst) s) as [[[] | e] s1];
    eexists; reflexivity.
Qed.

Lemma handle_record_failed_count (dst : string) (record : json) (s : state W) :
  failed_count (snd (handle_record dst record s)) = failed_count s \/
  failed_count (snd (handle_record dst record s)) = (failed_count s + 1)%Z.
Proof.
  rewrite handle_record_run.
  destruct (sns_records record) as [items | e]; [| right; reflexivity].
  pose proof (events_loop_failed_count dst items s) as F.
  destruct (for_each items (process_s3_record dst) s) as [[[] | e] s1];
    simpl in *; [left | right]; rewrite F; reflexivity.
Qed.

(** *** The batch *)

Lemma batch_returns (dst : string) (records : list json) (s : state W) :
  exists s', for_each records (handle_record dst) s = (Ok tt, s').
Proof.
  revert s. induction records as [| record records IH]; intro s.
  - exists s. reflexivity.
  - rewrite for_each_cons.
    destruct (handle_record_returns dst record s) as [s1 ->]. apply IH.
Qed.

Lemma batch_failed_count (dst : string) (records : list json) (s : state W) :
  (failed_count s
   <= failed_count (snd (for_each records (handle_record dst) s))
   <= failed_count s + Z.of_nat (List.length records))%Z.
Proof.
  revert s. induction records as [| record records IH]; intro s.
  - simpl. lia.
  - rewrite for_each_cons.
    pose proof (handle_record_failed_count dst record s) as F.
    destruct (handle_record_returns dst record s) as [s1 E].
    rewrite E in *. simpl in F. specialize (IH s1).
    simpl List.length. lia.
Qed.

Lemma lambda_handler_run (event context : json) (s : state W) :
  lambda_handler event context s =
  match environ_get environ "DESTINATION_BUCKET" with
  | Raise e => (Raise e, s)
  | Ok dst =>
      let s0 := {| world := world s; trace := trace s;
                   processed_count := 0; failed_count := 0 |} in
      match getitem event "Records" with
      | Raise e => (Raise e, s0)
      | Ok records =>
          match iter records with
          | Raise e => (Raise e, s0)
          | Ok items =>
              match for_each items (handle_record dst) s0 with
              | (Ok _, s') => (Ok (response_of s'), s')
              | (Raise e, s') => (Raise e, s')
              end
          end
      end
  end.
Proof.
  unfold lambda_handler, bind, lift, set_processed_count, set_failed_count.
  destruct (environ_get environ "DESTINATION_BUCKET") as [dst | e];
    [| reflexivity].
  destruct (getitem event "Records") as [records | e]; [| reflexivity].
  destruct (iter records) as [items | e]; [| reflexivity].
  simpl.
  match goal with
  | |- context [for_each items (handle_record dst) ?s0] =>
      destruct (for_each items (handle_record dst) s0) as [[[] | e] s']
  end; reflexivity.
Qed.


(** Without the destination bucket in the environment, or without
    [Records] in the event, the handler does raise: these lines are
    outside every [try]. *)
Lemma missing_bucket_raises (event context : json) (e : exn) (s : state W) :
  environ_get environ "DESTINATION_BUCKET" = Raise e ->
  lambda_handler event context s = (Raise e, s).
Proof. intro H. rewrite lambda_handler_run, H. reflexivity. Qed.

Lemma missing_records_raises (dst : string) (event context : json) (e : exn)
    (s : state W) :
  environ_get environ "DESTINATION_BUCKET" = Ok dst ->
  getitem event "Records" = Raise e ->
  fst (lambda_handler event context s) = Raise e.
Proof. intros H1 H2. rewrite lambda_handler_run, H1, H2. reflexivity. Qed.

(** Each way of being malformed makes lines 23-29 raise. *)
Lemma malformed_raises (record : json) (e : exn) :
  malformed record e -> sns_records record = Raise e.
Proof.
  unfold sns_records.
  intros [e' H1 | text e' H1 H2 | text mb e' H1 H2 H3
         | text mb m e' H1 H2 H3 H4 | text mb m sm e' H1 H2 H3 H4 H5];
    rewrite H1; cbn [res_bind loads]; try reflexivity;
    rewrite H2; cbn [res_bind]; try reflexivity;
    rewrite H3; cbn [res_bind loads]; try reflexivity;
    rewrite H4; cbn [res_bind]; try reflexivity;
    rewrite H5; reflexivity.
Qed.


(** C10. The failed count the handler returns is between 0 and the number
    of SQS records of the batch, one record adding 0 or 1 to it; an empty
    batch returns processed 0 and failed 0. *)
Theorem C10_failed_count_at_most_envelopes
    (dst : string) (records : list json) (event context : json) (s : state W) :
  environ_get environ "DESTINATION_BUCKET" = Ok dst ->
  getitem event "Records" = Ok (JArr records) ->
  (exists s',
     lambda_handler event context s =
       (Ok {| statusCode := 200;
              body := json_dumps None
                        (JObj [ ("processed", JInt (processed_count s'));
                                ("failed", JInt (failed_count s')) ]) |},
        s') /\
     (0 <= failed_count s' <= Z.of_nat (List.length records))%Z /\
     (records = [] -> processed_count s' = 0%Z /\ failed_count s' = 0%Z)) /\
  (forall record s0,
     failed_count (snd (handle_record dst record s0)) = failed_count s0 \/
     failed_count (snd (handle_record dst record s0)) = (failed_count s0 + 1)%Z).
Proof.
  intros Henv Hrec. split; [| intros; apply handle_record_failed_count].
  rewrite lambda_handler_run, Henv, Hrec. simpl.
  match goal with
  | |- context [for_each records (handle_record dst) ?s0] =>
      pose proof (batch_failed_count dst records s0) as F;
      destruct (batch_returns dst records s0) as [s' E]
  end.
  rewrite E in *. simpl in F.
  exists s'. split; [reflexivity |]. split; [lia |].
  intros ->. simpl in E. inversion E; subst. split; reflexivity.
Qed.

(** *** What one S3 event fetches and writes *)

Lemma s3_fields_raw_key (r : json) (ev : s3_event) :
  s3_fields r = Ok ev ->
  exists raw, raw_key r = Ok (JStr raw) /\ object_key ev = unquote_plus raw.
Proof.
  unfold s3_fields, raw_key, res_bind. intro H.
  destruct (getitem r "s3") as [s3 |]; [| discriminate H].
  destruct (getitem s3 "bucket") as [bucket |]; [| discriminate H].
  destruct (getitem bucket "name") as [name |]; [| discriminate H].
  destruct (getitem s3 "object") as [object |]; [| discriminate H].
  destruct (getitem object "key") as [key |]; [| discriminate H].
  destruct key as [| | | | raw | |]; try discriminate H.
  simpl in H.
  destruct (getitem object "size") as [size |]; [| discriminate H].
  destruct (getitem r "eventTime") as [time |]; [| discriminate H].
  inversion H; subst. exists raw. split; reflexivity.
Qed.

Lemma clock_reads_event_calls dst ev hr t1 t2 o :
  clock_reads (event_calls dst ev hr t1 t2 o) = [t1; t2].
Proof. destruct hr, o; reflexivity. Qed.

(** C4. When the metadata fetch of an S3 event raises, the handler prints
    the error and goes on with that event: it makes exactly one write, of
    a result whose content type is unknown and whose last-modified is the
    empty string; the failed count stays as it was, and the processed
    count grows by one when the write is done. *)
Theorem C4_lookup_failure_falls_back
    (dst : string) (r : json) (ev : s3_event) (e : exn) (s : state W) :
  s3_fields r = Ok ev ->
  fst (head_object (source_bucket ev) (object_key ev) (world s)) = Raise e ->
  exists t1 t2 o s',
    process_s3_record dst r s =
      (match o with
       | None => Ok tt
       | Some e' => Raise e'
       end, s') /\
    trace s' =
      trace s
      ++ [ Print (LogProcessing (source_bucket ev) (object_key ev));
           HeadObject (source_bucket ev) (object_key ev) (Raise e);
           Print (LogMetadataError e);
           UtcNow t1; UtcNow t2;
           PutObject dst (result_key t2 (object_key ev))
             (json_dumps (Some 2) (result ev "unknown" "" t1))
             "application/json" o ]
      ++ match o with
         | None => [Print (LogStored dst (result_key t2 (object_key ev)))]
         | Some _ => []
         end /\
    getitem (result ev "unknown" "" t1) "content_type" = Ok (JStr "unknown") /\
    getitem (result ev "unknown" "" t1) "last_modified" = Ok (JStr "") /\
    failed_count s' = failed_count s /\
    processed_count s' = match o with
                         | None => (processed_count s + 1)%Z
                         | Some _ => processed_count s
                         end.
Proof.
  intros Hf Hh.
  rewrite process_s3_record_run, Hf.
  destruct (event_run_cases dst ev s) as (hr & t1 & t2 & o & w' & Hhr & E).
  rewrite Hh in Hhr. subst hr. rewrite E.
  exists t1, t2, o. eexists. split; [reflexivity |].
  simpl. repeat split; reflexivity.
Qed.

(** C8 (amended). The key of every result written is [processed/], then
    a clock read formatted as YYYYMMDD-HHMMSS-microseconds, then [-], the
    decoded object key with every [/] replaced by [_], then [.json].  The
    clock read is the second of the two reads made for the event; the
    first is the one the result stores as [processed_at]. *)
Theorem C8_output_key_format
    (dst : string) (r : json) (ev : s3_event) (s : state W) :
  s3_fields r = Ok ev ->
  exists raw new t1 t2 content_type last_modified o,
    raw_key r = Ok (JStr raw) /\
    trace (snd (process_s3_record dst r s)) = trace s ++ new /\
    clock_reads new = [t1; t2] /\
    getitem (result ev content_type last_modified t1) "processed_at"
      = Ok (JStr (isoformat t1)) /\
    writes new =
      [{| put_bucket := dst;
          put_key :=
            ("processed/"
             ++ (zero_pad 4 (year t2) ++ zero_pad 2 (month t2)
                 ++ zero_pad 2 (day t2) ++ "-"
                 ++ zero_pad 2 (hour t2) ++ zero_pad 2 (minute t2)
                 ++ zero_pad 2 (second t2) ++ "-"
                 ++ zero_pad 6 (microsecond t2))
             ++ "-" ++ replace "/" "_" (unquote_plus raw) ++ ".json")%string;
          put_body := json_dumps (Some 2)
                        (result ev content_type last_modified t1);
          put_outcome := o |}].
Proof.
  intro Hf.
  destruct (s3_fields_raw_key r ev Hf) as (raw & Hraw & Hkey).
  rewrite process_s3_record_run, Hf.
  destruct (event_run_cases dst ev s) as (hr & t1 & t2 & o & w' & _ & E).
  rewrite E. simpl.
  exists raw, (event_calls dst ev hr t1 t2 o), t1, t2,
    (fst (metadata_of hr)), (snd (metadata_of hr)), o.
  split; [exact Hraw |]. split; [reflexivity |].
  split; [apply clock_reads_event_calls |]. split; [reflexivity |].
  rewrite writes_event_calls. unfold result_key.
  rewrite timestamp_format, Hkey. reflexivity.
Qed.

(** C9. The key an S3 event carries is passed through [unquote_plus],
    which gives back every key that the plus-for-space percent-encoding
    [quote_plus] encoded, before anything uses it: the fetch is made for
    the decoded key, the result stores the decoded key as [object_key],
    and the output key embeds the decoded key. *)
Theorem C9_key_decoded_before_use
    (dst : string) (r : json) (ev : s3_event) (s : state W) :
  s3_fields r = Ok ev ->
  (forall key, unquote_plus (quote_plus key) = key) /\
  exists raw new t1 t2 content_type last_modified o,
    raw_key r = Ok (JStr raw) /\
    trace (snd (process_s3_record dst r s)) = trace s ++ new /\
    fetches new = [(source_bucket ev, unquote_plus raw)] /\
    writes new =
      [{| put_bucket := dst;
          put_key := ("processed/" ++ timestamp t2 ++ "-"
                      ++ replace "/" "_" (unquote_plus raw) ++ ".json")%string;
          put_body :=
            json_dumps (Some 2)
              (JObj [ ("source_bucket", source_bucket ev);
                      ("object_key", JStr (unquote_plus raw));
                      ("object_size", object_size ev);
                      ("content_type", JStr content_type);
                      ("event_time", event_time ev);
                      ("last_modified", JStr last_modified);
                      ("processed_at", JStr (isoformat t1));
                      ("status", JStr "processed") ]);
          put_outcome := o |}].
Proof.
  intro Hf. split; [exact unquote_plus_quote_plus |].
  destruct (s3_fields_raw_key r ev Hf) as (raw & Hraw & Hkey).
  rewrite process_s3_record_run, Hf.
  destruct (event_run_cases dst ev s) as (hr & t1 & t2 & o & w' & _ & E).
  rewrite E. simpl.
  exists raw, (event_calls dst ev hr t1 t2 o), t1, t2,
    (fst (metadata_of hr)), (snd (metadata_of hr)), o.
  split; [exact Hraw |]. split; [reflexivity |].
  split; [rewrite fetches_event_calls, Hkey; reflexivity |].
  rewrite writes_event_calls. unfold result_key, result.
  rewrite Hkey. reflexivity.
Qed.

(** *** One SQS record whose layers decode *)

Lemma decoded_fields (items : list json) (evs : list s3_event) :
  Forall2 (fun r ev => s3_fields r = Ok ev) items evs ->
  decoded items = evs /\ List.length evs = List.length items.
Proof.
  induction 1 as [| r ev items evs H _ [IH L]]; [split; reflexivity |].
  unfold decoded in *. simpl. rewrite H, IH, L. split; reflexivity.
Qed.

Lemma decoded_app (a b : list json) :
  decoded (a ++ b) = decoded a ++ decoded b.
Proof. apply flat_map_app. Qed.

Lemma event_run_raise (dst : string) (ev : s3_event) (e : exn)
    (s s' : state W) :
  event_run dst ev s = (Raise e, s') ->
  exists hr t1 t2,
    trace s' = trace s ++ event_calls dst ev hr t1 t2 (Some e) /\
    processed_count s' = processed_count s /\
    failed_count s' = failed_count s.
Proof.
  intro H.
  destruct (event_run_cases dst ev s) as (hr & t1 & t2 & o & w' & _ & E).
  rewrite E in H. destruct o as [e' |]; inversion H; subst.
  exists hr, t1, t2. repeat split; reflexivity.
Qed.

(** The loop stops at the first write that raises: the events before it
    are done, the one whose write raised has had its fetch and its write,
    and the events after it have had nothing. *)
Lemma loop_stops_at_failed_write
    (dst : string) (pre post : list json) (r : json)
    (ev : s3_event) (e : exn) (s s1 s2 : state W) :
  for_each pre (process_s3_record dst) s = (Ok tt, s1) ->
  s3_fields r = Ok ev ->
  process_s3_record dst r s1 = (Raise e, s2) ->
  for_each (pre ++ r :: post) (process_s3_record dst) s = (Raise e, s2) /\
  failed_count s2 = failed_count s /\
  processed_count s2 = (processed_count s + Z.of_nat (List.length pre))%Z /\
  exists evs new ws p,
    Forall2 (fun x ev' => s3_fields x = Ok ev') pre evs /\
    trace s2 = trace s ++ new /\
    one_fetch_one_write dst (evs ++ [ev]) new /\
    writes new = ws ++ [p] /\
    Forall (fun q => put_outcome q = None) ws /\
    put_outcome p = Some e.
Proof.
  intros Hpre Hf Hr.
  destruct (events_loop_ok dst pre s s1 Hpre)
    as (P & F & evs & tr & D & T & O & A).
  split.
  { rewrite for_each_app, Hpre, for_each_cons, Hr. reflexivity. }
  rewrite process_s3_record_run, Hf in Hr.
  destruct (event_run_raise dst ev e s1 s2 Hr) as (hr & t1 & t2 & T2 & P2 & F2).
  split; [rewrite F2, F; reflexivity |].
  split; [rewrite P2, P; reflexivity |].
  exists evs, (tr ++ event_calls dst ev hr t1 t2 (Some e)), (writes tr),
    {| put_bucket := dst;
       put_key := result_key t2 (object_key ev);
       put_body := json_dumps (Some 2)
                     (result ev (fst (metadata_of hr))
                        (snd (metadata_of hr)) t1);
       put_outcome := Some e |}.
  split; [exact D |].
  split; [rewrite T2, T, app_assoc; reflexivity |].
  split; [apply one_fetch_one_write_app;
          [exact O | apply event_calls_one_fetch_one_write] |].
  split; [rewrite writes_app, writes_event_calls; reflexivity |].
  split; [exact A | reflexivity].
Qed.

Lemma record_stops_at_failed_write
    (dst : string) (record : json) (pre post : list json) (r : json)
    (ev : s3_event) (e : exn) (s s1 s2 : state W) :
  sns_records record = Ok (pre ++ r :: post) ->
  for_each pre (process_s3_record dst) s = (Ok tt, s1) ->
  s3_fields r = Ok ev ->
  process_s3_record dst r s1 = (Raise e, s2) ->
  exists s' evs new ws p,
    handle_record dst record s = (Ok tt, s') /\
    failed_count s' = (failed_count s + 1)%Z /\
    processed_count s' = (processed_count s + Z.of_nat (List.length pre))%Z /\
    Forall2 (fun x ev' => s3_fields x = Ok ev') pre evs /\
    trace s' =
      trace s ++ new ++ [Print (LogRecordError e); Print (LogRecord record)] /\
    one_fetch_one_write dst (evs ++ [ev]) new /\
    writes new = ws ++ [p] /\
    Forall (fun q => put_outcome q = None) ws /\
    put_outcome p = Some e.
Proof.
  intros Hsns Hpre Hf Hr.
  destruct (loop_stops_at_failed_write dst pre post r ev e s s1 s2 Hpre Hf Hr)
    as (L & F & P & evs & new & ws & p & D & T & O & Wn & A & Pe).
  exists (after_except e record s2), evs, new, ws, p.
  split; [rewrite handle_record_run, Hsns, L; reflexivity |].
  unfold after_except; simpl.
  split; [rewrite F; reflexivity |].
  split; [exact P |].
  split; [exact D |].
  split; [rewrite T, app_assoc; reflexivity |].
  split; [exact O |].
  split; [exact Wn |].
  split; [exact A | exact Pe].
Qed.

(** C6. When an output write raises in the loop over the events of an
    SQS record, the [except] clause of that record catches it: the record
    is done without raising, the failed count grows by exactly one, the
    events before the failing one stay counted as processed, and the
    trace holds a fetch and a write for each event up to the failing one
    and none for the events after it. *)
Theorem C6_write_failure_fails_envelope
    (dst : string) (record : json) (pre post : list json) (r : json)
    (ev : s3_event) (e : exn) (s s1 s2 : state W) :
  sns_records record = Ok (pre ++ r :: post) ->
  for_each pre (process_s3_record dst) s = (Ok tt, s1) ->
  s3_fields r = Ok ev ->
  process_s3_record dst r s1 = (Raise e, s2) ->
  exists s' evs new ws p,
    handle_record dst record s = (Ok tt, s') /\
    failed_count s' = (failed_count s + 1)%Z /\
    processed_count s' = (processed_count s + Z.of_nat (List.length pre))%Z /\
    Forall2 (fun x ev' => s3_fields x = Ok ev') pre evs /\
    trace s' =
      trace s ++ new ++ [Print (LogRecordError e); Print (LogRecord record)] /\
    one_fetch_one_write dst (evs ++ [ev]) new /\
    writes new = ws ++ [p] /\
    Forall (fun q => put_outcome q = None) ws /\
    put_outcome p = Some e.
Proof.
  intros Hsns Hpre Hf Hr.
  destruct (loop_stops_at_failed_write dst pre post r ev e s s1 s2 Hpre Hf Hr)
    as (L & F & P & evs & new & ws & p & D & T & O & Wn & A & Pe).
  assert (H : handle_record dst record s
              = (Ok tt, after_except e record s2)).
  { unfold handle_record, try_except, bind, lift.
    rewrite Hsns, L.
    unfold print, incr_failed, set_failed_count, record_call, after_except.
    simpl. rewrite <- app_assoc. reflexivity. }
  exists (after_except e record s2), evs, new, ws, p.
  split; [exact H |].
  unfold after_except; simpl.
  split; [rewrite F; reflexivity |].
  split; [exact P |].
  split; [exact D |].
  split; [rewrite T, app_assoc; reflexivity |].
  split; [exact O |].
  split; [exact Wn |].
  split; [exact A | exact Pe].
Qed.

Lemma well_formed_events (record : json) :
  well_formed record = true ->
  sns_records record = Ok (events_of record) /\
  Forall (fun r => exists ev, s3_fields r = Ok ev) (events_of record).
Proof.
  unfold well_formed, events_of.
  destruct (sns_records record) as [items | e]; [| discriminate].
  intro H. split; [reflexivity |].
  apply Forall_forall. intros r Hin.
  rewrite forallb_forall in H. specialize (H r Hin).
  unfold event_ok in H. destruct (s3_fields r) as [ev |]; [| discriminate H].
  exists ev. reflexivity.
Qed.

(** C3 (amended). For a well-formed SQS record, the events up to and
    including the first one whose write raises have each exactly one
    attempted fetch and exactly one attempted write, whether the fetch
    succeeded or not, and the events after it have none: a write that
    raises is the last write of the record, every write before it was
    done.  When no write of the record raises, that is every event of the
    record. *)
Theorem C3_one_fetch_one_write_until_failed_write
    (dst : string) (record : json) (s : state W) :
  well_formed record = true ->
  exists m new,
    trace (snd (handle_record dst record s)) = trace s ++ new /\
    m <= List.length (events_of record) /\
    one_fetch_one_write dst (firstn m (decoded (events_of record))) new /\
    (Forall (fun p => put_outcome p = None) (writes new) ->
     m = List.length (events_of record)) /\
    (m < List.length (events_of record) ->
     exists ws p e, writes new = ws ++ [p] /\ put_outcome p = Some e) /\
    exists done last,
      writes new = done ++ last /\
      Forall (fun p => put_outcome p = None) done /\
      (last = [] \/ exists p e, last = [p] /\ put_outcome p = Some e).
Proof.
  intro WF. destruct (well_formed_events record WF) as [Hsns Hall].
  destruct (for_each (events_of record) (process_s3_record dst) s)
    as [[[] | e] s1] eqn:L.
  - destruct (events_loop_ok dst _ s s1 L) as (_ & _ & evs & tr & D & T & O & A).
    destruct (decoded_fields _ _ D) as [Dec Len].
    exists (List.length (events_of record)), tr.
    rewrite handle_record_run, Hsns, L. simpl.
    split; [exact T |]. split; [lia |].
    split; [rewrite Dec, <- Len, firstn_all; exact O |].
    split; [reflexivity |]. split; [lia |].
    exists (writes tr), []. rewrite app_nil_r.
    split; [reflexivity |]. split; [exact A | left; reflexivity].
  - destruct (for_each_raise _ _ _ _ _ L) as (pre & r & post & s0 & Hit & Hpre & Hr).
    rewrite Hit in Hall, Hsns.
    apply Forall_app in Hall. destruct Hall as [_ Hr'].
    inversion Hr' as [| ? ? [ev Hf] _]; subst.
    destruct (record_stops_at_failed_write dst record pre post r ev e s s0 s1
                Hsns Hpre Hf Hr)
      as (s' & evs & new & ws & p & H1 & _ & _ & D & T & O & Wn & A & Pe).
    destruct (decoded_fields _ _ D) as [Dec Len].
    assert (Fn : firstn (S (List.length pre)) (decoded (pre ++ r :: post))
                 = evs ++ [ev]).
    { rewrite decoded_app, Dec.
      change (decoded (r :: post))
        with (match s3_fields r with
              | Ok ev0 => [ev0]
              | Raise _ => []
              end ++ decoded post).
      rewrite Hf.
      replace (S (List.length pre)) with (List.length evs + 1) by lia.
      rewrite firstn_app_2. reflexivity. }
    exists (S (List.length pre)),
      (new ++ [Print (LogRecordError e); Print (LogRecord record)]).
    rewrite H1. cbn [snd]. split; [exact T |].
    rewrite Hit, Fn, length_app. cbn [List.length]. split; [lia |].
    split; [apply one_fetch_one_write_prints; exact O |].
    rewrite writes_app, Wn. cbn [writes flat_map write_of app].
    rewrite app_nil_r. split.
      * intro A'. apply Forall_app in A'. destruct A' as [_ A'].
        inversion A' as [| ? ? Hp _]; subst. rewrite Pe in Hp. discriminate Hp.
      * split; [intros _; exists ws, p, e; split; [reflexivity | exact Pe] |].
        exists ws, [p]. split; [reflexivity |]. split; [exact A |].
        right. exists p, e. split; [reflexivity | exact Pe].
Qed.

(** *** The trace only grows *)

Lemma extends_refl (s : state W) : extends s s.
Proof. exists []. symmetry. apply app_nil_r. Qed.

Lemma extends_trans (s1 s2 s3 : state W) :
  extends s1 s2 -> extends s2 s3 -> extends s1 s3.
Proof.
  intros [a Ha] [b Hb]. exists (a ++ b). rewrite Hb, Ha, app_assoc. reflexivity.
Qed.

Lemma for_each_extends {A} (f : A -> M unit) :
  (forall x (s : state W), extends s (snd (f x s))) ->
  forall items (s : state W), extends s (snd (for_each items f s)).
Proof.
  intros Hf items. induction items as [| x items IH]; intro s;
    [apply extends_refl |].
  rewrite for_each_cons. specialize (Hf x s).
  destruct (f x s) as [[[] | e] s1]; [| exact Hf].
  apply (extends_trans s s1); [exact Hf | apply IH].
Qed.

Lemma process_s3_record_extends (dst : string) (r : json) (s : state W) :
  extends s (snd (process_s3_record dst r s)).
Proof.
  rewrite process_s3_record_run.
  destruct (s3_fields r) as [ev | e]; [| apply extends_refl].
  destruct (event_run_cases dst ev s) as (hr & t1 & t2 & o & w' & _ & E).
  rewrite E. eexists. reflexivity.
Qed.

Lemma handle_record_extends (dst : string) (record : json) (s : state W) :
  extends s (snd (handle_record dst record s)).
Proof.
  rewrite handle_record_run.
  destruct (sns_records record) as [items | e]; [| eexists; reflexivity].
  pose proof (for_each_extends (process_s3_record dst)
                (process_s3_record_extends dst) items s) as L.
  destruct (for_each items (process_s3_record dst) s) as [[[] | e] s1];
    [exact L |].
  apply (extends_trans s s1); [exact L | eexists; reflexivity].
Qed.

Lemma extends_failed_write (s s' : state W) (p : put_call) :
  extends s s' -> In p (writes (trace s)) -> In p (writes (trace s')).
Proof.
  intros [new E] H. rewrite E, writes_app. apply in_or_app. left. exact H.
Qed.

(** *** Counting over a well-formed batch *)

Lemma record_counts (dst : string) (record : json) (s : state W) :
  well_formed record = true ->
  let s' := snd (handle_record dst record s) in
  let n := Z.of_nat (List.length (events_of record)) in
  (processed_count s' + failed_count s'
   <= processed_count s + failed_count s + n)%Z /\
  (~ write_fails_midway dst (events_of record) s ->
   (processed_count s' + failed_count s'
    = processed_count s + failed_count s + n)%Z).
Proof.
  intros WF s' n. subst s' n.
  destruct (well_formed_events record WF) as [Hsns Hall].
  destruct (for_each (events_of record) (process_s3_record dst) s)
    as [[[] | e] s1] eqn:L.
  - destruct (events_loop_ok dst _ s s1 L) as (P & F & _).
    rewrite handle_record_run, Hsns, L. simpl. rewrite P, F. lia.
  - destruct (for_each_raise _ _ _ _ _ L) as (pre & r & post & s0 & Hit & Hpre & Hr).
    pose proof Hall as Hall'. rewrite Hit in Hall', Hsns.
    apply Forall_app in Hall'. destruct Hall' as [_ Hr'].
    inversion Hr' as [| ? ? [ev Hf] _]; subst.
    destruct (record_stops_at_failed_write dst record pre post r ev e s s0 s1
                Hsns Hpre Hf Hr)
      as (s' & _ & _ & _ & _ & H1 & F & P & _).
    rewrite H1, Hit, length_app. cbn [snd List.length]. rewrite F, P.
    split; [lia |].
    intro NM. destruct post as [| r' post']; [simpl; lia |].
    exfalso. apply NM.
    rewrite process_s3_record_run, Hf in Hr.
    exists pre, r, (r' :: post'), ev, e, s0, s1.
    repeat split; try assumption. discriminate.
Qed.

Lemma batch_counts (dst : string) (records : list json) (s : state W) :
  forallb well_formed records = true ->
  let s' := snd (for_each records (handle_record dst) s) in
  let n := Z.of_nat (total_events records) in
  (processed_count s' + failed_count s'
   <= processed_count s + failed_count s + n)%Z /\
  (~ some_write_fails_midway dst records s ->
   (processed_count s' + failed_count s'
    = processed_count s + failed_count s + n)%Z).
Proof.
  revert s. induction records as [| record records IH]; intros s WF.
  - simpl. split; intros; lia.
  - simpl in WF. apply andb_true_iff in WF. destruct WF as [WF1 WF2].
    destruct (record_counts dst record s WF1) as [Le Eq].
    rewrite for_each_cons.
    destruct (handle_record_returns dst record s) as [s1 E].
    rewrite E in *. cbn [snd] in Le, Eq.
    destruct (IH s1 WF2) as [Le' Eq']. cbn zeta in *.
    cbn [total_events some_write_fails_midway]. rewrite E. cbn [snd].
    rewrite Nat2Z.inj_add. split; [lia |].
    intro NM.
    assert (N1 : ~ write_fails_midway dst (events_of record) s) by tauto.
    assert (N2 : ~ some_write_fails_midway dst records s1) by tauto.
    specialize (Eq N1). specialize (Eq' N2). lia.
Qed.

(** A write that fails midway is a failed write of the run. *)
Lemma midway_failed_write (dst : string) (record : json) (s : state W) :
  sns_records record = Ok (events_of record) ->
  write_fails_midway dst (events_of record) s ->
  exists p,
    In p (writes (trace (snd (handle_record dst record s)))) /\
    put_outcome p <> None.
Proof.
  intros Hsns (pre & r & post & ev & e & s1 & s2 & Hit & _ & Hpre & Hf & Hr).
  rewrite Hit in Hsns.
  rewrite <- (process_s3_record_run_ok dst r ev s1 Hf) in Hr.
  destruct (record_stops_at_failed_write dst record pre post r ev e s s1 s2
              Hsns Hpre Hf Hr)
    as (s' & _ & new & ws & p & H1 & _ & _ & _ & T & _ & Wn & _ & Pe).
  exists p. rewrite H1. cbn [snd]. split; [| rewrite Pe; discriminate].
  rewrite T, !writes_app, Wn. apply in_or_app. right.
  apply in_or_app. left. apply in_or_app. right. left. reflexivity.
Qed.

Lemma batch_midway_failed_write (dst : string) (records : list json)
    (s : state W) :
  forallb well_formed records = true ->
  some_write_fails_midway dst records s ->
  exists p,
    In p (writes (trace (snd (for_each records (handle_record dst) s)))) /\
    put_outcome p <> None.
Proof.
  revert s. induction records as [| record records IH]; intros s WF H;
    [destruct H |].
  simpl in WF. apply andb_true_iff in WF. destruct WF as [WF1 WF2].
  rewrite for_each_cons.
  destruct (handle_record_returns dst record s) as [s1 E].
  cbn [some_write_fails_midway] in H. rewrite E in *. cbn [snd] in H.
  destruct H as [H | H].
  - destruct (well_formed_events record WF1) as [Hsns _].
    destruct (midway_failed_write dst record s Hsns H) as (p & Hin & Hp).
    rewrite E in Hin. cbn [snd] in Hin.
    exists p. split; [| exact Hp].
    apply (extends_failed_write s1); [| exact Hin].
    apply (for_each_extends (handle_record dst) (handle_record_extends dst)).
  - apply IH; assumption.
Qed.

(** C2. For a batch whose SQS records are all well-formed, the processed
    count plus the failed count the handler returns is at most the number
    of S3 events of the batch, and equal to it unless some write raises
    while events of its record are left; in particular it is equal when
    no write of the run raises. *)
Theorem C2_counts_bounded_by_events
    (dst : string) (records : list json) (event context : json) (w : W) :
  environ_get environ "DESTINATION_BUCKET" = Ok dst ->
  getitem event "Records" = Ok (JArr records) ->
  forallb well_formed records = true ->
  exists s',
    lambda_handler event context (initial w) =
      (Ok {| statusCode := 200;
             body := json_dumps None
                       (JObj [ ("processed", JInt (processed_count s'));
                               ("failed", JInt (failed_count s')) ]) |},
       s') /\
    (processed_count s' + failed_count s'
     <= Z.of_nat (total_events records))%Z /\
    (~ some_write_fails_midway dst records (initial w) ->
     (processed_count s' + failed_count s'
      = Z.of_nat (total_events records))%Z) /\
    (Forall (fun p => put_outcome p = None) (writes (trace s')) ->
     (processed_count s' + failed_count s'
      = Z.of_nat (total_events records))%Z).
Proof.
  intros Henv Hrec WF.
  rewrite lambda_handler_run, Henv, Hrec. cbn [iter].
  change {| world := world (initial w); trace := trace (initial w);
            processed_count := 0; failed_count := 0 |} with (initial w).
  cbn zeta.
  destruct (batch_counts dst records (initial w) WF) as [Le Eq].
  destruct (batch_returns dst records (initial w)) as [s' E].
  pose proof (batch_midway_failed_write dst records (initial w) WF) as Mid.
  rewrite E in *. cbn [snd initial processed_count failed_count] in Le, Eq, Mid.
  exists s'. split; [reflexivity |]. split; [lia |].
  split; [intro NM; specialize (Eq NM); lia |].
  intro A. apply Eq. intro Hm.
  destruct (Mid Hm) as (p & Hin & Hp).
  rewrite Forall_forall in A. apply Hp, A, Hin.
Qed.

(** *** The keys of the writes *)

Lemma key_times_app_print (tr : list call) (line : log_line) (rest : list call) :
  key_times (tr ++ Print line :: rest)
  = key_times tr ++ key_times (Print line :: rest).
Proof.
  induction tr as [| c tr IH]; [reflexivity |].
  destruct tr as [| c' tr'].
  - destruct c; reflexivity.
  - destruct c; try exact IH.
    destruct c'; try exact IH.
    cbn [app key_times] in *. rewrite IH. reflexivity.
Qed.

Lemma stamped_event (tr : list call) dst ev hr t1 t2 o :
  stamped tr -> stamped (tr ++ event_calls dst ev hr t1 t2 o).
Proof.
  unfold stamped. intro H.
  rewrite writes_app, writes_event_calls.
  replace (key_times (tr ++ event_calls dst ev hr t1 t2 o))
    with (key_times tr ++ [t2]).
  - apply Forall2_app; [exact H |].
    constructor; [| constructor]. exists (object_key ev). reflexivity.
  - destruct hr, o; unfold event_calls; cbn [app];
      rewrite key_times_app_print; reflexivity.
Qed.

Lemma stamped_prints (tr : list call) (l1 l2 : log_line) :
  stamped tr -> stamped (tr ++ [Print l1; Print l2]).
Proof.
  unfold stamped. intro H.
  rewrite writes_app, key_times_app_print. cbn.
  rewrite !app_nil_r. exact H.
Qed.

Lemma for_each_invariant {A} (P : state W -> Prop) (f : A -> M unit) :
  (forall x s, P s -> P (snd (f x s))) ->
  forall items s, P s -> P (snd (for_each items f s)).
Proof.
  intros Hf items. induction items as [| x items IH]; intros s Hs; [exact Hs |].
  rewrite for_each_cons. specialize (Hf x s Hs).
  destruct (f x s) as [[[] | e] s1]; [apply IH |]; exact Hf.
Qed.

Lemma process_s3_record_stamped (dst : string) (r : json) (s : state W) :
  stamped (trace s) -> stamped (trace (snd (process_s3_record dst r s))).
Proof.
  intro H. rewrite process_s3_record_run.
  destruct (s3_fields r) as [ev | e]; [| exact H].
  destruct (event_run_cases dst ev s) as (hr & t1 & t2 & o & w' & _ & E).
  rewrite E. apply stamped_event. exact H.
Qed.

Lemma handle_record_stamped (dst : string) (record : json) (s : state W) :
  stamped (trace s) -> stamped (trace (snd (handle_record dst record s))).
Proof.
  intro H. rewrite handle_record_run.
  destruct (sns_records record) as [items | e];
    [| apply stamped_prints; exact H].
  pose proof (for_each_invariant (fun s => stamped (trace s))
                (process_s3_record dst) (process_s3_record_stamped dst)
                items s H) as L.
  destruct (for_each items (process_s3_record dst) s) as [[[] | e] s1];
    [exact L | apply stamped_prints; exact L].
Qed.

Lemma lambda_handler_stamped (event context : json) (w : W) :
  stamped (trace (snd (lambda_handler event context (initial w)))).
Proof.
  assert (H0 : stamped (trace (initial w))) by constructor.
  rewrite lambda_handler_run.
  destruct (environ_get environ "DESTINATION_BUCKET") as [dst | e];
    [| exact H0].
  cbn zeta.
  destruct (getitem event "Records") as [records | e]; [| exact H0].
  destruct (iter records) as [items | e]; [| exact H0].
  match goal with
  | |- context [for_each items (handle_record dst) ?s0] =>
      pose proof (for_each_invariant (fun s => stamped (trace s))
                    (handle_record dst) (handle_record_stamped dst)
                    items s0 H0) as L;
      destruct (for_each items (handle_record dst) s0) as [[[] | e] s']
  end; exact L.
Qed.

Lemma timestamp_length (t : datetime) : String.length (timestamp t) = 22.
Proof.
  rewrite timestamp_format.
  repeat rewrite string_length_app. repeat rewrite zero_pad_length. reflexivity.
Qed.

Lemma result_key_stamp (t t' : datetime) (k k' : string) :
  result_key t k = result_key t' k' -> timestamp t = timestamp t'.
Proof.
  unfold result_key. intro H.
  apply string_app_inj in H; [| reflexivity]. destruct H as [_ H].
  apply string_app_inj in H; [apply H |].
  rewrite !timestamp_length. reflexivity.
Qed.

Lemma stamped_keys_distinct (ts : list datetime) (ps : list put_call) :
  Forall2 (fun t p => exists key, put_key p = result_key t key) ts ps ->
  NoDup (map timestamp ts) -> NoDup (map put_key ps).
Proof.
  induction 1 as [| t p ts ps [k Hk] H IH]; intro N; [constructor |].
  simpl in *. inversion N as [| ? ? Hnot N']; subst.
  constructor; [| apply IH; exact N'].
  intro Hin. apply Hnot. clear - Hin H Hk.
  induction H as [| t' p' ts ps [k' Hk'] H IH]; [destruct Hin |].
  simpl in *. destruct Hin as [E | Hin].
  - left. symmetry. apply (result_key_stamp t t' k k').
    rewrite <- Hk, <- Hk'. symmetry. exact E.
  - right. apply IH. exact Hin.
Qed.

(** In particular the keys are distinct when the clock reads that stamp
    them are naive, in range and pairwise distinct. *)
Lemma keys_distinct_when_reads_differ (event context : json) (w : W) :
  let tr := trace (snd (lambda_handler event context (initial w))) in
  Forall (fun t => in_range t /\ tzinfo t = None) (key_times tr) ->
  NoDup (key_times tr) ->
  NoDup (map put_key (writes tr)).
Proof.
  intros tr R N. apply (stamped_keys_distinct (key_times tr));
    [apply lambda_handler_stamped |].
  apply NoDup_map_NoDup_ForallPairs; [| exact N].
  intros t t' Ht Ht' E. rewrite Forall_forall in R.
  destruct (R t Ht) as [Rt Zt]. destruct (R t' Ht') as [Rt' Zt'].
  apply timestamp_inj; try assumption. rewrite Zt, Zt'. reflexivity.
Qed.

Lemma Forall2_nth_error_r {A B} (R : A -> B -> Prop) (l : list A)
    (l' : list B) (i : nat) (y : B) :
  Forall2 R l l' -> nth_error l' i = Some y ->
  exists x, nth_error l i = Some x /\ R x y.
Proof.
  intro H. revert i. induction H as [| x0 y0 l l' H0 _ IH]; intros i Hi.
  - destruct i; discriminate Hi.
  - destruct i as [| i].
    + inversion Hi; subst. exists x0. split; [reflexivity | exact H0].
    + apply IH. exact Hi.
Qed.

(** C7 (amended). Within one invocation, every write has the clock read
    that stamps its key, and any two writes whose stamping reads print as
    different microsecond timestamps are made under different keys, also
    when their events name the same source key. *)
Theorem C7_keys_distinct_when_stamps_differ
    (event context : json) (w : W) (i j : nat) (pi pj : put_call) :
  let tr := trace (snd (lambda_handler event context (initial w))) in
  nth_error (writes tr) i = Some pi ->
  nth_error (writes tr) j = Some pj ->
  exists ti tj ki kj,
    nth_error (key_times tr) i = Some ti /\
    nth_error (key_times tr) j = Some tj /\
    put_key pi = result_key ti ki /\
    put_key pj = result_key tj kj /\
    (timestamp ti <> timestamp tj -> put_key pi <> put_key pj).
Proof.
  intros tr Hi Hj.
  pose proof (lambda_handler_stamped event context w) as S.
  fold tr in S. unfold stamped in S.
  destruct (Forall2_nth_error_r _ _ _ i pi S Hi) as (ti & Ti & ki & Ki).
  destruct (Forall2_nth_error_r _ _ _ j pj S Hj) as (tj & Tj & kj & Kj).
  exists ti, tj, ki, kj.
  split; [exact Ti |]. split; [exact Tj |].
  split; [exact Ki |]. split; [exact Kj |].
  intros D E. apply D.
  apply (result_key_stamp ti tj ki kj). rewrite <- Ki, <- Kj. exact E.
Qed.

End Properties.

(** ** Further properties of the handler *)

(** *** The name of the result file *)

Lemma string_app_inj_r (a b c : string) :
  (a ++ c)%string = (b ++ c)%string -> a = b.
Proof.
  intro H.
  assert (L : String.length a = String.length b).
  { apply (f_equal String.length) in H. rewrite !string_length_app in H. lia. }
  apply (string_app_inj a b c c L H).
Qed.

(** X10. Two result keys are the same exactly when their timestamps are the
    same and the object keys agree once every [/] is a [_]: the keys [a/b]
    and [a_b] stamped alike are written under one name. *)
Theorem result_key_collision (t t' : datetime) (k k' : string) :
  result_key t k = result_key t' k' <->
  timestamp t = timestamp t' /\ replace "/" "_" k = replace "/" "_" k'.
Proof.
  unfold result_key. split.
  - intro H.
    apply string_app_inj in H; [| reflexivity]. destruct H as [_ H].
    apply string_app_inj in H; [| rewrite !timestamp_length; reflexivity].
    destruct H as [Ht H]. split; [exact Ht |].
    apply string_app_inj in H; [| reflexivity]. destruct H as [_ H].
    apply (string_app_inj_r _ _ ".json"). exact H.
  - intros [-> ->]. reflexivity.
Qed.

Lemma occurs_app (c : ascii) (a b : string) :
  occurs c (a ++ b) = occurs c a || occurs c b.
Proof.
  induction a as [| x a IH]; [reflexivity |].
  simpl. rewrite IH, orb_assoc. reflexivity.
Qed.

Lemma replace_removes (old new : ascii) (s : string) :
  Ascii.eqb new old = false -> occurs old (replace old new s) = false.
Proof.
  intro H. induction s as [| c s IH]; [reflexivity |].
  simpl. rewrite IH, orb_false_r.
  destruct (Ascii.eqb c old) eqn:E; [exact H | exact E].
Qed.

Lemma digit_not_slash (n : N) : Ascii.eqb (digit n) "/" = false.
Proof.
  apply Ascii.eqb_neq. intro H. unfold digit in H.
  apply (f_equal N_of_ascii) in H.
  assert (B : (n mod 10 < 10)%N) by (apply N.mod_lt; lia).
  rewrite N_ascii_embedding in H by lia.
  change (N_of_ascii "/") with 47%N in H.
  clear B. revert H. generalize (n mod 10)%N. intros m H. lia.
Qed.

Lemma zero_pad_no_slash (width : nat) (n : N) :
  occurs "/" (zero_pad width n) = false.
Proof.
  revert n. induction width as [| w IH]; intro n; [reflexivity |].
  simpl. rewrite occurs_app, IH. simpl.
  rewrite digit_not_slash. reflexivity.
Qed.

(** X11. A result key is [processed/], a name and [.json], and the name holds
    no [/]: whatever the object key, the result lies directly under the
    prefix. *)
Theorem result_key_is_flat (t : datetime) (k : string) :
  exists name,
    result_key t k = ("processed/" ++ name ++ ".json")%string /\
    occurs "/" name = false.
Proof.
  exists (timestamp t ++ "-" ++ replace "/" "_" k)%string. split.
  - unfold result_key. rewrite !string_app_assoc. reflexivity.
  - rewrite timestamp_format. repeat rewrite occurs_app.
    rewrite !zero_pad_no_slash, replace_removes by reflexivity. reflexivity.
Qed.

(** *** Keys that need no decoding *)

Lemma replace_absent (old new : ascii) (s : string) :
  occurs old s = false -> replace old new s = s.
Proof.
  induction s as [| c s IH]; [reflexivity |].
  simpl. intro H. apply orb_false_iff in H. destruct H as [E H].
  rewrite E, (IH H). reflexivity.
Qed.

Lemma unquote_no_percent (s : string) :
  occurs "%" s = false -> unquote s = s.
Proof.
  induction s as [| c s IH]; [reflexivity |].
  cbn [occurs]. intro H. apply orb_false_iff in H. destruct H as [E H].
  cbn [unquote]. rewrite E, (IH H). reflexivity.
Qed.

Section MoreProperties.

Context {W : Type} {RT : Runtime W}.

(** *** When the handler raises *)

(** X1. The handler raises exactly when the destination bucket is not in the
    environment, or the event has no [Records], or [Records] cannot be
    iterated; and then it raises the exception of that step, having made
    no call and left the world as it was. *)
Theorem handler_raises_exactly_when
    (event context : json) (s : state W) (e : exn) :
  (fst (lambda_handler event context s) = Raise e <->
   environ_get environ "DESTINATION_BUCKET" = Raise e \/
   (exists dst,
      environ_get environ "DESTINATION_BUCKET" = Ok dst /\
      (getitem event "Records" = Raise e \/
       exists records,
         getitem event "Records" = Ok records /\ iter records = Raise e))) /\
  (fst (lambda_handler event context s) = Raise e ->
   trace (snd (lambda_handler event context s)) = trace s /\
   world (snd (lambda_handler event context s)) = world s).
Proof.
  rewrite lambda_handler_run.
  destruct (environ_get environ "DESTINATION_BUCKET") as [dst | e0].
  - cbn zeta.
    destruct (getitem event "Records") as [records | e1].
    + destruct (iter records) as [items | e2] eqn:Eit.
      * match goal with
        | |- context [for_each items (handle_record dst) ?s0] =>
            destruct (batch_returns dst items s0) as [s' ->]
        end.
        cbn [fst snd]. split; [| discriminate].
        split; [discriminate |].
        intros [H | (dst' & H & [H' | (recs & H1 & H2)])];
          try discriminate.
        inversion H1; subst. rewrite Eit in H2. discriminate.
      * cbn [fst snd]. split; [| intros _; split; reflexivity].
        split.
        -- intro H. right. exists dst. split; [reflexivity |].
           right. exists records. split; [reflexivity |].
           rewrite Eit. inversion H; reflexivity.
        -- intros [H | (dst' & _ & [H | (recs & H1 & H2)])];
             try discriminate.
           inversion H1; subst. rewrite Eit in H2.
           inversion H2; reflexivity.
    + cbn [fst snd]. split; [| intros _; split; reflexivity].
      split.
      * intro H. right. exists dst. split; [reflexivity |]. left.
        inversion H; reflexivity.
      * intros [H | (dst' & _ & [H | (recs & H1 & _)])];
          try discriminate; inversion H; reflexivity.
  - cbn [fst snd]. split; [| intros _; split; reflexivity].
    split.
    + intro H. left. inversion H; reflexivity.
    + intros [H | (dst' & H & _)]; [inversion H; reflexivity | discriminate].
Qed.

(** *** Events whose fields cannot be read *)

(** X2. When an S3 event lacks one of the four fields, or its key is not a
    str, lines 31-34 raise before anything is fetched or written for it:
    the record counts one failure, the events before it stay processed,
    and that event and the events after it cause no call. *)
Theorem unreadable_event_fails_record
    (dst : string) (record : json) (pre post : list json) (r : json)
    (e : exn) (s s1 : state W) :
  sns_records record = Ok (pre ++ r :: post) ->
  for_each pre (process_s3_record dst) s = (Ok tt, s1) ->
  s3_fields r = Raise e ->
  handle_record dst record s =
    (Ok tt,
     {| world := world s1;
        trace := trace s1 ++ [ Print (LogRecordError e);
                               Print (LogRecord record) ];
        processed_count := processed_count s + Z.of_nat (List.length pre);
        failed_count := failed_count s + 1 |}).
Proof.
  intros Hsns Hpre Hf.
  destruct (events_loop_ok dst pre s s1 Hpre) as (P & F & _).
  rewrite handle_record_run, Hsns, for_each_app, Hpre, for_each_cons,
    process_s3_record_run, Hf.
  unfold after_except. rewrite P, F. reflexivity.
Qed.

(** *** The metadata of an object that is found *)

(** X3. When the fetch answers, the result carries the content type and the
    ISO form of the last-modified date of the answer, with [unknown] for
    an answer without content type and the empty string for one without
    date; nothing is printed about the fetch and the failed count stays. *)
Theorem lookup_success_fills_metadata
    (dst : string) (r : json) (ev : s3_event) (response : head_response)
    (s : state W) :
  s3_fields r = Ok ev ->
  fst (head_object (source_bucket ev) (object_key ev) (world s)) = Ok response ->
  exists t1 t2 o s',
    process_s3_record dst r s =
      (match o with
       | None => Ok tt
       | Some e' => Raise e'
       end, s') /\
    trace s' =
      trace s
      ++ [ Print (LogProcessing (source_bucket ev) (object_key ev));
           HeadObject (source_bucket ev) (object_key ev) (Ok response);
           UtcNow t1; UtcNow t2;
           PutObject dst (result_key t2 (object_key ev))
             (json_dumps (Some 2)
                (result ev
                   (match ContentType response with
                    | Some c => c
                    | None => "unknown"
                    end)
                   (match LastModified response with
                    | Some t => isoformat t
                    | None => ""
                    end) t1))
             "application/json" o ]
      ++ match o with
         | None => [Print (LogStored dst (result_key t2 (object_key ev)))]
         | Some _ => []
         end /\
    failed_count s' = failed_count s.
Proof.
  intros Hf Hh.
  rewrite process_s3_record_run, Hf.
  destruct (event_run_cases dst ev s) as (hr & t1 & t2 & o & w' & Hhr & E).
  rewrite Hh in Hhr. subst hr. rewrite E.
  exists t1, t2, o. eexists. split; [reflexivity |].
  split; reflexivity.
Qed.

(** X4. A key without [+] and without [%] is used as the event carries it:
    the fetch is made for that very key. *)
Theorem plain_key_is_fetched_as_is
    (dst : string) (r : json) (ev : s3_event) (raw : string) (s : state W) :
  s3_fields r = Ok ev ->
  raw_key r = Ok (JStr raw) ->
  occurs "+" raw = false ->
  occurs "%" raw = false ->
  exists new,
    trace (snd (process_s3_record dst r s)) = trace s ++ new /\
    fetches new = [(source_bucket ev, raw)].
Proof.
  intros Hf Hraw Hplus Hpct.
  destruct (s3_fields_raw_key r ev Hf) as (raw' & Hraw' & Hkey).
  rewrite Hraw in Hraw'. inversion Hraw'; subst raw'.
  assert (D : unquote_plus raw = raw).
  { unfold unquote_plus. rewrite (replace_absent _ _ _ Hplus).
    apply unquote_no_percent. exact Hpct. }
  rewrite process_s3_record_run, Hf.
  destruct (event_run_cases dst ev s) as (hr & t1 & t2 & o & w' & _ & E).
  rewrite E. cbn [snd trace].
  exists (event_calls dst ev hr t1 t2 o). split; [reflexivity |].
  rewrite fetches_event_calls, Hkey, D. reflexivity.
Qed.

(** *** What holds along a whole run *)

Lemma batch_invariant (P : state W -> Prop) (dst : string) :
  (forall ev s, P s -> P (snd (event_run dst ev s))) ->
  (forall e record s, P s -> P (after_except e record s)) ->
  forall records s, P s -> P (snd (for_each records (handle_record dst) s)).
Proof.
  intros Hev Hex. apply for_each_invariant.
  intros record s Hs. rewrite handle_record_run.
  destruct (sns_records record) as [items | e]; [| apply Hex; exact Hs].
  assert (L : P (snd (for_each items (process_s3_record dst) s))).
  { apply for_each_invariant; [| exact Hs].
    intros r s0 H0. rewrite process_s3_record_run.
    destruct (s3_fields r) as [ev | e]; [apply Hev |]; exact H0. }
  destruct (for_each items (process_s3_record dst) s) as [[[] | e] s1];
    [exact L | apply Hex; exact L].
Qed.

Lemma handler_invariant (P : state W -> Prop) (event context : json) (w : W) :
  P (initial w) ->
  (forall dst,
     environ_get environ "DESTINATION_BUCKET" = Ok dst ->
     (forall ev s, P s -> P (snd (event_run dst ev s))) /\
     (forall e record s, P s -> P (after_except e record s))) ->
  P (snd (lambda_handler event context (initial w))).
Proof.
  intros H0 H. rewrite lambda_handler_run.
  destruct (environ_get environ "DESTINATION_BUCKET") as [dst | e];
    [| exact H0].
  destruct (H dst eq_refl) as [Hev Hex]. cbn zeta.
  change {| world := world (initial w); trace := trace (initial w);
            processed_count := 0; failed_count := 0 |} with (initial w).
  destruct (getitem event "Records") as [records | e]; [| exact H0].
  destruct (iter records) as [items | e]; [| exact H0].
  pose proof (batch_invariant P dst Hev Hex items (initial w) H0) as L.
  destruct (for_each items (handle_record dst) (initial w)) as [[[] | e] s'];
    exact L.
Qed.

Lemma event_run_trace (dst : string) (ev : s3_event) (s : state W) :
  exists hr t1 t2 o,
    trace (snd (event_run dst ev s)) = trace s ++ event_calls dst ev hr t1 t2 o /\
    processed_count (snd (event_run dst ev s))
      = match o with
        | None => (processed_count s + 1)%Z
        | Some _ => processed_count s
        end /\
    failed_count (snd (event_run dst ev s)) = failed_count s.
Proof.
  destruct (event_run_cases dst ev s) as (hr & t1 & t2 & o & w' & _ & E).
  rewrite E. exists hr, t1, t2, o. repeat split.
Qed.

(** X5. Every [put_object] of an invocation goes to the destination bucket of
    the environment, with the JSON media type: the handler writes nowhere
    else, and never to a source bucket named by an event. *)
Theorem writes_go_to_destination
    (dst : string) (event context : json) (w : W) :
  environ_get environ "DESTINATION_BUCKET" = Ok dst ->
  Forall (put_to dst) (trace (snd (lambda_handler event context (initial w)))).
Proof.
  intro Henv.
  apply (handler_invariant (fun s => Forall (put_to dst) (trace s)));
    [constructor |].
  intros dst' Henv'. rewrite Henv in Henv'. inversion Henv'; subst dst'.
  split.
  - intros ev s Hs.
    destruct (event_run_trace dst ev s) as (hr & t1 & t2 & o & -> & _).
    apply Forall_app. split; [exact Hs |].
    destruct hr, o; unfold event_calls; cbn [app];
      repeat constructor.
  - intros e record s Hs. unfold after_except; cbn [trace].
    apply Forall_app. split; [exact Hs | repeat constructor].
Qed.

Lemma done_writes_app (tr1 tr2 : list call) :
  done_writes (tr1 ++ tr2) = done_writes tr1 ++ done_writes tr2.
Proof. unfold done_writes. rewrite writes_app. apply filter_app. Qed.

Lemma record_errors_app (tr1 tr2 : list call) :
  record_errors (tr1 ++ tr2) = record_errors tr1 ++ record_errors tr2.
Proof. apply flat_map_app. Qed.

Lemma record_dumps_app (tr1 tr2 : list call) :
  record_dumps (tr1 ++ tr2) = record_dumps tr1 ++ record_dumps tr2.
Proof. apply flat_map_app. Qed.

Lemma clock_reads_app (tr1 tr2 : list call) :
  clock_reads (tr1 ++ tr2) = clock_reads tr1 ++ clock_reads tr2.
Proof. apply flat_map_app. Qed.

(** X6. The processed count an invocation ends with is the number of writes
    that were done, whatever the batch holds. *)
Theorem processed_count_is_done_writes (event context : json) (w : W) :
  let s' := snd (lambda_handler event context (initial w)) in
  processed_count s' = Z.of_nat (List.length (done_writes (trace s'))).
Proof.
  apply (handler_invariant
           (fun s => processed_count s
                     = Z.of_nat (List.length (done_writes (trace s)))));
    [reflexivity |].
  intros dst _. split.
  - intros ev s Hs.
    destruct (event_run_trace dst ev s) as (hr & t1 & t2 & o & -> & -> & _).
    rewrite done_writes_app, length_app, Hs.
    unfold done_writes. rewrite writes_event_calls.
    destruct o; cbn; lia.
  - intros e record s Hs. unfold after_except; cbn [trace processed_count].
    rewrite done_writes_app, length_app, Hs. cbn. lia.
Qed.

(** X7. The failed count an invocation ends with is the number of errors
    printed by the [except] clause, each with the dump of its record:
    every failure counted is a failure logged. *)
Theorem failed_count_is_errors_logged (event context : json) (w : W) :
  let s' := snd (lambda_handler event context (initial w)) in
  failed_count s' = Z.of_nat (List.length (record_errors (trace s'))) /\
  List.length (record_dumps (trace s'))
    = List.length (record_errors (trace s')).
Proof.
  apply (handler_invariant
           (fun s => failed_count s
                     = Z.of_nat (List.length (record_errors (trace s))) /\
                     List.length (record_dumps (trace s))
                     = List.length (record_errors (trace s))));
    [split; reflexivity |].
  intros dst _. split.
  - intros ev s [Hf Hd].
    destruct (event_run_trace dst ev s) as (hr & t1 & t2 & o & -> & _ & ->).
    rewrite record_errors_app, record_dumps_app, !length_app, Hf, Hd.
    destruct hr, o; cbn; split; lia.
  - intros e record s [Hf Hd]. unfold after_except; cbn [trace failed_count].
    rewrite record_errors_app, record_dumps_app, !length_app, Hf, Hd.
    cbn. split; lia.
Qed.

(** X9. Fetches and writes go in pairs along an invocation: the n-th write is
    made under a key built from the key of the n-th fetch, there are as
    many writes as fetches, and twice as many clock reads. *)
Theorem fetches_and_writes_pair_up (event context : json) (w : W) :
  let tr := trace (snd (lambda_handler event context (initial w))) in
  Forall2 (fun f p => exists t, put_key p = result_key t (snd f))
    (fetches tr) (writes tr) /\
  List.length (clock_reads tr) = 2 * List.length (writes tr).
Proof.
  apply (handler_invariant
           (fun s =>
              Forall2 (fun f p => exists t, put_key p = result_key t (snd f))
                (fetches (trace s)) (writes (trace s)) /\
              List.length (clock_reads (trace s))
              = 2 * List.length (writes (trace s))));
    [split; [constructor | reflexivity] |].
  intros dst _. split.
  - intros ev s [Hp Hc].
    destruct (event_run_trace dst ev s) as (hr & t1 & t2 & o & -> & _).
    rewrite fetches_app, writes_app, clock_reads_app, !length_app,
      fetches_event_calls, writes_event_calls, clock_reads_event_calls, Hc.
    split; [| cbn; lia].
    apply Forall2_app; [exact Hp |].
    constructor; [| constructor]. exists t2. reflexivity.
  - intros e record s [Hp Hc]. unfold after_except; cbn [trace].
    rewrite fetches_app, writes_app, clock_reads_app, !length_app. cbn.
    rewrite !app_nil_r, Nat.add_0_r. split; [exact Hp | lia].
Qed.

(** *** Splitting a batch *)

Lemma event_run_same (dst : string) (ev : s3_event) (s s' : state W) :
  world s = world s' ->
  same_effect (event_run dst ev s) (event_run dst ev s') s s'.
Proof.
  intro H. unfold event_run. rewrite <- H.
  destruct (head_object (source_bucket ev) (object_key ev) (world s)) as [hr w1].
  destruct (utcnow w1) as [t1 w2].
  destruct (utcnow w2) as [t2 w3].
  match goal with
  | |- context [put_object ?a ?b ?c ?d ?w] =>
      destruct (put_object a b c d w) as [o w4]
  end.
  unfold same_effect; cbn [fst snd world trace processed_count failed_count].
  split; [reflexivity |]. split; [reflexivity |].
  split; [destruct o; lia |]. split; [lia |].
  eexists. split; reflexivity.
Qed.

Lemma for_each_same {A} (f : A -> M unit) :
  (forall x (s s' : state W),
     world s = world s' -> same_effect (f x s) (f x s') s s') ->
  forall items (s s' : state W),
    world s = world s' ->
    same_effect (for_each items f s) (for_each items f s') s s'.
Proof.
  intros Hf items. induction items as [| x items IH]; intros s s' H.
  - unfold same_effect; cbn. split; [reflexivity |]. split; [exact H |].
    split; [lia |]. split; [lia |].
    exists []. rewrite !app_nil_r. split; reflexivity.
  - rewrite !for_each_cons.
    destruct (Hf x s s' H) as (R & Wd & P & F & new & T & T').
    destruct (f x s) as [r1 s1]. destruct (f x s') as [r1' s1'].
    cbn [fst snd] in *. subst r1'.
    destruct r1 as [[] | e].
    + destruct (IH s1 s1' Wd) as (R2 & W2 & P2 & F2 & new2 & T2 & T2').
      unfold same_effect. split; [exact R2 |]. split; [exact W2 |].
      split; [lia |]. split; [lia |].
      exists (new ++ new2). rewrite T2, T2', T, T', !app_assoc.
      split; reflexivity.
    + unfold same_effect; cbn [fst snd].
      split; [reflexivity |]. split; [exact Wd |].
      split; [exact P |]. split; [exact F |].
      exists new. split; assumption.
Qed.

Lemma process_s3_record_same (dst : string) (r : json) (s s' : state W) :
  world s = world s' ->
  same_effect (process_s3_record dst r s) (process_s3_record dst r s') s s'.
Proof.
  intro H. rewrite !process_s3_record_run.
  destruct (s3_fields r) as [ev | e]; [apply event_run_same; exact H |].
  unfold same_effect; cbn. split; [reflexivity |]. split; [exact H |].
  split; [lia |]. split; [lia |].
  exists []. rewrite !app_nil_r. split; reflexivity.
Qed.

Lemma after_except_same (e : exn) (record : json)
    (r r' : res unit * state W) (s s' : state W) :
  same_effect r r' s s' ->
  same_effect (Ok tt, after_except e record (snd r))
    (Ok tt, after_except e record (snd r')) s s'.
Proof.
  intros (_ & Wd & P & F & new & T & T').
  unfold same_effect, after_except;
    cbn [fst snd world trace processed_count failed_count].
  split; [reflexivity |]. split; [exact Wd |].
  split; [exact P |]. split; [lia |].
  exists (new ++ [Print (LogRecordError e); Print (LogRecord record)]).
  rewrite T, T', !app_assoc. split; reflexivity.
Qed.

Lemma handle_record_same (dst : string) (record : json) (s s' : state W) :
  world s = world s' ->
  same_effect (handle_record dst record s) (handle_record dst record s') s s'.
Proof.
  intro H. rewrite !handle_record_run.
  destruct (sns_records record) as [items | e].
  - pose proof (for_each_same (process_s3_record dst)
                  (process_s3_record_same dst) items s s' H) as L.
    destruct (for_each items (process_s3_record dst) s) as [r1 s1] eqn:E1.
    destruct (for_each items (process_s3_record dst) s') as [r1' s1'] eqn:E1'.
    pose proof L as (R & _). cbn [fst] in R. subst r1'.
    destruct r1 as [[] | e].
    + exact L.
    + apply (after_except_same e record (Raise e, s1) (Raise e, s1')). exact L.
  - apply (after_except_same e record (Ok tt, s) (Ok tt, s')).
    unfold same_effect; cbn. split; [reflexivity |]. split; [exact H |].
    split; [lia |]. split; [lia |].
    exists []. rewrite !app_nil_r. split; reflexivity.
Qed.

(** X12. One invocation on the batch [a ++ b] does what an invocation on [a]
    followed by an invocation on [b] does: the same calls in the same
    order, the same world left, and counts that are the sums of the counts
    of the two.  A failing record changes nothing for the records after
    it. *)
Theorem batch_split
    (dst : string) (a b : list json) (event_a event_b event_ab context : json)
    (w : W) :
  environ_get environ "DESTINATION_BUCKET" = Ok dst ->
  getitem event_a "Records" = Ok (JArr a) ->
  getitem event_b "Records" = Ok (JArr b) ->
  getitem event_ab "Records" = Ok (JArr (a ++ b)) ->
  let s1 := snd (lambda_handler event_a context (initial w)) in
  let s2 := snd (lambda_handler event_b context (initial (world s1))) in
  let s12 := snd (lambda_handler event_ab context (initial w)) in
  world s12 = world s2 /\
  trace s12 = trace s1 ++ trace s2 /\
  processed_count s12 = (processed_count s1 + processed_count s2)%Z /\
  failed_count s12 = (failed_count s1 + failed_count s2)%Z.
Proof.
  intros Henv Ha Hb Hab. cbv zeta.
  rewrite !lambda_handler_run, Henv, Ha, Hb, Hab. cbn [iter]. cbv zeta.
  change {| world := world (initial w); trace := trace (initial w);
            processed_count := 0; failed_count := 0 |} with (initial w).
  rewrite for_each_app.
  destruct (batch_returns dst a (initial w)) as [s1 E1]. rewrite E1.
  cbn [snd].
  change {| world := world (initial (world s1));
            trace := trace (initial (world s1));
            processed_count := 0; failed_count := 0 |}
    with (initial (world s1)).
  pose proof (for_each_same (handle_record dst) (handle_record_same dst)
                b s1 (initial (world s1)) eq_refl)
    as (_ & Wd & P & F & new & T & T').
  destruct (batch_returns dst b s1) as [s12 E12].
  destruct (batch_returns dst b (initial (world s1))) as [s2 E2].
  rewrite E12, E2 in *.
  cbn [snd initial world trace processed_count failed_count app] in *.
  split; [exact Wd |]. split; [rewrite T, T'; reflexivity |].
  split; lia.
Qed.

(** *** A batch without failure *)

Lemma record_all_done (dst : string) (record : json) (s : state W) :
  well_formed record = true ->
  exists new,
    trace (snd (handle_record dst record s)) = trace s ++ new /\
    (Forall (fun p => put_outcome p = None) (writes new) ->
     processed_count (snd (handle_record dst record s))
       = (processed_count s + Z.of_nat (List.length (events_of record)))%Z /\
     failed_count (snd (handle_record dst record s)) = failed_count s /\
     one_fetch_one_write dst (decoded (events_of record)) new).
Proof.
  intro WF. destruct (well_formed_events record WF) as [Hsns Hall].
  destruct (for_each (events_of record) (process_s3_record dst) s)
    as [[[] | e] s1] eqn:L.
  - destruct (events_loop_ok dst _ s s1 L) as (P & F & evs & tr & D & T & O & _).
    destruct (decoded_fields _ _ D) as [Dec _].
    rewrite handle_record_run, Hsns, L. cbn [snd].
    exists tr. split; [exact T |]. intros _.
    rewrite Dec. repeat split; try assumption; apply O.
  - destruct (for_each_raise _ _ _ _ _ L) as (pre & r & post & s0 & Hit & Hpre & Hr).
    rewrite Hit in Hall, Hsns.
    apply Forall_app in Hall. destruct Hall as [_ Hr'].
    inversion Hr' as [| ? ? [ev Hf] _]; subst.
    destruct (record_stops_at_failed_write dst record pre post r ev e s s0 s1
                Hsns Hpre Hf Hr)
      as (s' & evs & new & ws & p & H1 & _ & _ & _ & T & _ & Wn & _ & Pe).
    rewrite H1. cbn [snd]. eexists. split; [exact T |].
    intro A. exfalso.
    rewrite writes_app, Wn in A.
    apply Forall_app in A. destruct A as [A _].
    apply Forall_app in A. destruct A as [_ A].
    inversion A as [| ? ? Hp _]; subst. rewrite Pe in Hp. discriminate Hp.
Qed.

Lemma batch_all_done (dst : string) (records : list json) (s : state W) :
  forallb well_formed records = true ->
  exists new,
    trace (snd (for_each records (handle_record dst) s)) = trace s ++ new /\
    (Forall (fun p => put_outcome p = None) (writes new) ->
     processed_count (snd (for_each records (handle_record dst) s))
       = (processed_count s + Z.of_nat (total_events records))%Z /\
     failed_count (snd (for_each records (handle_record dst) s))
       = failed_count s /\
     one_fetch_one_write dst (decoded (all_events records)) new).
Proof.
  revert s. induction records as [| record records IH]; intros s WF.
  - exists []. cbn. rewrite app_nil_r. split; [reflexivity |].
    intros _. split; [lia |]. split; [reflexivity |].
    split; [reflexivity | constructor].
  - simpl in WF. apply andb_true_iff in WF. destruct WF as [WF1 WF2].
    destruct (record_all_done dst record s WF1) as (new1 & T1 & H1).
    rewrite for_each_cons.
    destruct (handle_record_returns dst record s) as [s1 E].
    rewrite E in *. cbn [snd] in T1, H1.
    destruct (IH s1 WF2) as (new2 & T2 & H2).
    exists (new1 ++ new2). split; [rewrite T2, T1, app_assoc; reflexivity |].
    intro A. rewrite writes_app in A. apply Forall_app in A.
    destruct A as [A1 A2].
    destruct (H1 A1) as (P1 & F1 & O1). destruct (H2 A2) as (P2 & F2 & O2).
    cbn [total_events]. rewrite Nat2Z.inj_add, P2, P1, F2, F1.
    split; [lia |]. split; [reflexivity |].
    unfold all_events. cbn [flat_map]. rewrite decoded_app.
    apply one_fetch_one_write_app; assumption.
Qed.

(** X13. When every record of the batch is well-formed and no write raises,
    the handler returns the number of S3 events as processed and 0 as
    failed, and it has fetched and written every event once, record after
    record and event after event, in the order of the batch. *)
Theorem batch_without_failure
    (dst : string) (records : list json) (event context : json) (w : W) :
  environ_get environ "DESTINATION_BUCKET" = Ok dst ->
  getitem event "Records" = Ok (JArr records) ->
  forallb well_formed records = true ->
  let s' := snd (lambda_handler event context (initial w)) in
  Forall (fun p => put_outcome p = None) (writes (trace s')) ->
  processed_count s' = Z.of_nat (total_events records) /\
  failed_count s' = 0%Z /\
  one_fetch_one_write dst (decoded (all_events records)) (trace s').
Proof.
  intros Henv Hrec WF. cbv zeta.
  rewrite lambda_handler_run, Henv, Hrec. cbn [iter]. cbv zeta.
  change {| world := world (initial w); trace := trace (initial w);
            processed_count := 0; failed_count := 0 |} with (initial w).
  destruct (batch_all_done dst records (initial w) WF) as (new & T & H).
  destruct (batch_returns dst records (initial w)) as [s' E].
  rewrite E in *. cbn [snd initial trace app processed_count failed_count] in *.
  rewrite T. intro A. destruct (H A) as (P & F & O).
  split; [rewrite P; lia |]. split; [exact F | exact O].
Qed.

(** *** No write fails unseen *)

Lemma failed_writes_app (tr1 tr2 : list call) :
  failed_writes (tr1 ++ tr2) = failed_writes tr1 ++ failed_writes tr2.
Proof. unfold failed_writes. rewrite writes_app. apply filter_app. Qed.

Lemma failed_writes_none (tr : list call) :
  Forall (fun p => put_outcome p = None) (writes tr) -> failed_writes tr = [].
Proof.
  unfold failed_writes. induction 1 as [| p ps Hp _ IH]; [reflexivity |].
  cbn [filter]. unfold is_done at 1. rewrite Hp. exact IH.
Qed.

Lemma handle_record_failed_writes (dst : string) (record : json) (s : state W) :
  (Z.of_nat (List.length (failed_writes (trace s))) <= failed_count s)%Z ->
  (Z.of_nat (List.length
               (failed_writes (trace (snd (handle_record dst record s)))))
   <= failed_count (snd (handle_record dst record s)))%Z.
Proof.
  intro Q. rewrite handle_record_run.
  destruct (sns_records record) as [items | e].
  - destruct (for_each items (process_s3_record dst) s) as [[[] | e] s1] eqn:L.
    + destruct (events_loop_ok dst _ s s1 L) as (_ & F & _ & tr & _ & T & _ & A).
      cbn [snd]. rewrite T, failed_writes_app, (failed_writes_none tr A), F,
        app_nil_r. exact Q.
    + destruct (for_each_raise _ _ _ _ _ L) as (pre & r & post & s0 & _ & Hpre & Hr).
      destruct (events_loop_ok dst _ s s0 Hpre)
        as (_ & F & _ & tr & _ & T & _ & A).
      rewrite process_s3_record_run in Hr.
      unfold after_except; cbn [snd trace failed_count].
      rewrite failed_writes_app. cbn [failed_writes writes flat_map write_of
        app filter]. rewrite app_nil_r.
      destruct (s3_fields r) as [ev | e0].
      * destruct (event_run_raise dst ev e s0 s1 Hr) as (hr & t1 & t2 & T2 & _ & F2).
        rewrite T2, T, !failed_writes_app, (failed_writes_none tr A), F2, F.
        unfold failed_writes at 2. rewrite writes_event_calls.
        cbn. rewrite !length_app. cbn. lia.
      * inversion Hr; subst.
        rewrite T, failed_writes_app, (failed_writes_none tr A), F, app_nil_r.
        lia.
  - unfold after_except; cbn [snd trace failed_count].
    rewrite failed_writes_app. cbn. rewrite app_nil_r. lia.
Qed.

(** X8. Every write that raised is counted: the failed count an invocation
    ends with is at least the number of its writes that raised. *)
Theorem failed_writes_are_counted (event context : json) (w : W) :
  let s' := snd (lambda_handler event context (initial w)) in
  (Z.of_nat (List.length (failed_writes (trace s'))) <= failed_count s')%Z.
Proof.
  cbv zeta. rewrite lambda_handler_run.
  destruct (environ_get environ "DESTINATION_BUCKET") as [dst | e];
    [| cbn; lia].
  cbv zeta.
  change {| world := world (initial w); trace := trace (initial w);
            processed_count := 0; failed_count := 0 |} with (initial w).
  destruct (getitem event "Records") as [records | e]; [| cbn; lia].
  destruct (iter records) as [items | e]; [| cbn; lia].
  assert (L : (Z.of_nat (List.length
                 (failed_writes
                    (trace (snd (for_each items (handle_record dst)
                                   (initial w))))))
               <= failed_count (snd (for_each items (handle_record dst)
                                       (initial w))))%Z).
  { apply (for_each_invariant
             (fun s => (Z.of_nat (List.length (failed_writes (trace s)))
                        <= failed_count s)%Z)
             (handle_record dst) (handle_record_failed_writes dst)).
    cbn. lia. }
  destruct (for_each items (handle_record dst) (initial w)) as [[[] | e] s'];
    exact L.
Qed.

End MoreProperties.

(** ** Closed runs *)

#[local] Existing Instance Sim.runtime.

(** The example of the specification: one event for the key [a%2Bb.png]
    of a PNG object. *)
Example end_to_end :
  let event :=
    Sim.batch [Sim.envelope
                 [Sim.s3_record "srcbkt" "a%2Bb.png" 1024 "2024-01-01T00:00:00Z"]] in
  let w := Sim.start [("srcbkt", "a+b.png", Sim.png)] 7 [] in
  let out := lambda_handler event JNull (initial w) in
  fst out = Ok {| statusCode := 200;
                  body := Json.dumps None
                            (JObj [("processed", JInt 1); ("failed", JInt 0)]) |} /\
  map (fun p => (put_bucket p, put_key p)) (writes (trace (snd out)))
  = [("dstbkt", "processed/20240101-000000-000007-a+b.png.json")] /\
  map (fun p => Json.loads (put_body p)) (writes (trace (snd out)))
  = [Ok (JObj [ ("source_bucket", JStr "srcbkt");
                ("object_key", JStr "a+b.png");
                ("object_size", JInt 1024);
                ("content_type", JStr "image/png");
                ("event_time", JStr "2024-01-01T00:00:00Z");
                ("last_modified", JStr "2024-01-01T00:00:00+00:00");
                ("processed_at", JStr "2024-01-01T00:00:00");
                ("status", JStr "processed") ])].
Proof. vm_compute. repeat split. Qed.


(** Two well-formed records, three events, no failing write. *)
Lemma C2_witness :
  let records := [Sim.envelope [Sim.cat; Sim.dog]; Sim.envelope [Sim.bird]] in
  let w := Sim.start [] 1 [] in
  environ_get (@environ _ Sim.runtime) "DESTINATION_BUCKET" = Ok "dstbkt" /\
  getitem (Sim.batch records) "Records" = Ok (JArr records) /\
  forallb well_formed records = true /\
  exists s',
    lambda_handler (Sim.batch records) JNull (initial w)
      = (Ok (response_of s'), s') /\
    (processed_count s' + failed_count s' <= 3)%Z.
Proof.
  split; [reflexivity |]. split; [reflexivity |]. split; [vm_compute; reflexivity |].
  assert (WF : forallb (well_formed (RT := Sim.runtime))
                 [Sim.envelope [Sim.cat; Sim.dog]; Sim.envelope [Sim.bird]]
               = true) by (vm_compute; reflexivity).
  destruct (C2_counts_bounded_by_events (RT := Sim.runtime) "dstbkt"
              [Sim.envelope [Sim.cat; Sim.dog]; Sim.envelope [Sim.bird]]
              (Sim.batch [Sim.envelope [Sim.cat; Sim.dog]; Sim.envelope [Sim.bird]])
              JNull (Sim.start [] 1 []) eq_refl eq_refl WF)
    as (s' & H & Le & _).
  exists s'. split; [exact H | exact Le].
Defined.

(** With no failing write the two counts add up to the number of events;
    with a write that fails at the first of two events they do not. *)
Example counts_when_no_write_fails :
  let records := [Sim.envelope [Sim.cat; Sim.dog]; Sim.envelope [Sim.bird]] in
  let s' := snd (lambda_handler (Sim.batch records) JNull
                   (initial (Sim.start [] 1 []))) in
  (processed_count s', failed_count s', total_events records) = (3%Z, 0%Z, 3).
Proof. vm_compute. reflexivity. Qed.

Example counts_when_a_write_fails_midway :
  let records := [Sim.envelope [Sim.cat; Sim.dog]; Sim.envelope [Sim.bird]] in
  let s' := snd (lambda_handler (Sim.batch records) JNull
                   (initial (Sim.start [] 1 [0]))) in
  (processed_count s', failed_count s', total_events records) = (1%Z, 1%Z, 3).
Proof. vm_compute. reflexivity. Qed.

(** Three events, the write of the second raises. *)
Lemma C3_witness :
  let record := Sim.envelope [Sim.cat; Sim.dog; Sim.bird] in
  let s := initial (Sim.start [] 1 [1]) in
  well_formed record = true /\
  exists m new,
    trace (snd (handle_record "dstbkt" record s)) = trace s ++ new /\
    one_fetch_one_write "dstbkt" (firstn m (decoded (events_of record))) new.
Proof.
  split; [vm_compute; reflexivity |].
  assert (WF : well_formed (RT := Sim.runtime)
                 (Sim.envelope [Sim.cat; Sim.dog; Sim.bird]) = true)
    by (vm_compute; reflexivity).
  destruct (C3_one_fetch_one_write_until_failed_write (RT := Sim.runtime)
              "dstbkt" (Sim.envelope [Sim.cat; Sim.dog; Sim.bird])
              (initial (Sim.start [] 1 [1])) WF)
    as (m & new & T & _ & O & _).
  exists m, new. split; [exact T | exact O].
Defined.

(** C3 as stated fails: the first write of a record with two events raises,
    and the second event gets neither a fetch nor a write. *)
Lemma C3_counterexample :
  let record := Sim.envelope [Sim.cat; Sim.dog] in
  let s := initial (Sim.start [] 1 [0]) in
  well_formed record = true /\
  List.length (decoded (events_of record)) = 2 /\
  ~ exists new,
      trace (snd (handle_record "dstbkt" record s)) = trace s ++ new /\
      one_fetch_one_write "dstbkt" (decoded (events_of record)) new.
Proof.
  split; [vm_compute; reflexivity |]. split; [vm_compute; reflexivity |].
  intros (new & T & F & _).
  cbn [initial trace app] in T. rewrite <- T in F.
  vm_compute in F. discriminate F.
Qed.

(** An event whose object is not in the source bucket. *)
Lemma C4_witness :
  let s := initial (Sim.start [] 1 []) in
  exists ev,
    s3_fields Sim.cat = Ok ev /\
    fst (head_object (source_bucket ev) (object_key ev) (world s))
      = Raise (ClientError "404") /\
    exists o s',
      process_s3_record "dstbkt" Sim.cat s
        = (match o with
           | None => Ok tt
           | Some e' => Raise e'
           end, s') /\
      failed_count s' = failed_count s.
Proof.
  eexists. split; [vm_compute; reflexivity |]. split; [reflexivity |].
  destruct (C4_lookup_failure_falls_back (RT := Sim.runtime) "dstbkt" Sim.cat
              _ (ClientError "404") (initial (Sim.start [] 1 []))
              eq_refl eq_refl)
    as (t1 & t2 & o & s' & H & _ & _ & _ & F & _).
  exists o, s'. split; [exact H | exact F].
Defined.


(** Missing fields are malformed bodies too. *)
Example missing_message_is_malformed :
  sns_records
    (JObj [("body", JStr (Json.dumps None (JObj [("Type", JStr "Notification")])))])
  = Raise (KeyError "Message").
Proof. vm_compute. reflexivity. Qed.

Example missing_records_is_malformed :
  sns_records
    (JObj [("body",
            JStr (Json.dumps None
                    (JObj [("Message", JStr (Json.dumps None (JObj [])))])))])
  = Raise (KeyError "Records").
Proof. vm_compute. reflexivity. Qed.

(** What [unquote_plus] does to the keys of the closed runs. *)
Example unquote_plus_examples :
  unquote_plus "a%2Bb.png" = "a+b.png" /\
  unquote_plus "my+dog%2Bbone.png" = "my dog+bone.png" /\
  unquote_plus "photos%2fcat.png" = "photos/cat.png" /\
  unquote_plus "100%.txt" = "100%.txt".
Proof. repeat split. Qed.

(** Three events, the write of the second raises: one processed, one
    failure, nothing done for the third. *)
Lemma C6_witness :
  let record := Sim.envelope [Sim.cat; Sim.dog; Sim.bird] in
  let s := initial (Sim.start [] 1 [1]) in
  let s1 := snd (for_each [Sim.cat] (process_s3_record "dstbkt") s) in
  let s2 := snd (process_s3_record "dstbkt" Sim.dog s1) in
  exists ev,
    sns_records record = Ok ([Sim.cat] ++ Sim.dog :: [Sim.bird]) /\
    for_each [Sim.cat] (process_s3_record "dstbkt") s = (Ok tt, s1) /\
    s3_fields Sim.dog = Ok ev /\
    process_s3_record "dstbkt" Sim.dog s1
      = (Raise (ClientError "AccessDenied"), s2) /\
    exists s',
      handle_record "dstbkt" record s = (Ok tt, s') /\
      failed_count s' = 1%Z /\
      processed_count s' = 1%Z.
Proof.
  eexists.
  split; [vm_compute; reflexivity |]. split; [vm_compute; reflexivity |].
  split; [vm_compute; reflexivity |]. split; [vm_compute; reflexivity |].
  assert (H1 : sns_records (RT := Sim.runtime)
                 (Sim.envelope [Sim.cat; Sim.dog; Sim.bird])
               = Ok ([Sim.cat] ++ Sim.dog :: [Sim.bird]))
    by (vm_compute; reflexivity).
  assert (H2 : for_each [Sim.cat] (process_s3_record (RT := Sim.runtime) "dstbkt")
                 (initial (Sim.start [] 1 [1]))
               = (Ok tt,
                  snd (for_each [Sim.cat]
                         (process_s3_record (RT := Sim.runtime) "dstbkt")
                         (initial (Sim.start [] 1 [1])))))
    by (vm_compute; reflexivity).
  assert (H4 : process_s3_record (RT := Sim.runtime) "dstbkt" Sim.dog
                 (snd (for_each [Sim.cat]
                         (process_s3_record (RT := Sim.runtime) "dstbkt")
                         (initial (Sim.start [] 1 [1]))))
               = (Raise (ClientError "AccessDenied"),
                  snd (process_s3_record (RT := Sim.runtime) "dstbkt" Sim.dog
                         (snd (for_each [Sim.cat]
                                 (process_s3_record (RT := Sim.runtime) "dstbkt")
                                 (initial (Sim.start [] 1 [1])))))))
    by (vm_compute; reflexivity).
  destruct (C6_write_failure_fails_envelope (RT := Sim.runtime) "dstbkt"
              _ _ _ _ _ _ _ _ _ H1 H2 eq_refl H4)
    as (s' & evs & new & ws & p & H & F & P & _).
  exists s'. split; [exact H |]. split; [exact F | exact P].
Defined.

(** Two events for the same key, stamped by a clock that moves. *)
Lemma C7_witness :
  let event := Sim.batch [Sim.envelope [Sim.cat; Sim.cat]] in
  let tr := trace (snd (lambda_handler event JNull
                          (initial (Sim.start [] 1 [])))) in
  exists p0 p1,
    nth_error (writes tr) 0 = Some p0 /\
    nth_error (writes tr) 1 = Some p1 /\
    put_key p0 <> put_key p1.
Proof.
  eexists. eexists.
  split; [vm_compute; reflexivity |]. split; [vm_compute; reflexivity |].
  match goal with
  | |- put_key ?a <> put_key ?b =>
      destruct (C7_keys_distinct_when_stamps_differ (RT := Sim.runtime)
                  (Sim.batch [Sim.envelope [Sim.cat; Sim.cat]]) JNull
                  (Sim.start [] 1 []) 0 1 a b eq_refl eq_refl)
        as (ti & tj & ki & kj & Ti & Tj & _ & _ & D)
  end.
  apply D. vm_compute in Ti, Tj.
  inversion Ti; subst ti. inversion Tj; subst tj.
  vm_compute. discriminate.
Defined.

(** C7 as stated fails: two events for the same key, stamped by a clock
    that reads the same microsecond twice, are written under one key. *)
Lemma C7_counterexample :
  let event := Sim.batch [Sim.envelope [Sim.cat; Sim.cat]] in
  let tr := trace (snd (lambda_handler event JNull
                          (initial (Sim.start [] 0 [])))) in
  map put_key (writes tr)
    = [ "processed/20240101-000000-000000-photos_cat.png.json";
        "processed/20240101-000000-000000-photos_cat.png.json" ] /\
  map put_outcome (writes tr) = [None; None] /\
  ~ NoDup (map put_key (writes tr)).
Proof.
  assert (K : map put_key
                (writes (trace (snd (lambda_handler (RT := Sim.runtime)
                                       (Sim.batch [Sim.envelope [Sim.cat; Sim.cat]])
                                       JNull (initial (Sim.start [] 0 []))))))
              = [ "processed/20240101-000000-000000-photos_cat.png.json";
                  "processed/20240101-000000-000000-photos_cat.png.json" ])
    by (vm_compute; reflexivity).
  split; [exact K |]. split; [vm_compute; reflexivity |].
  cbv zeta. rewrite K. intro N. inversion N as [| ? ? Hnot _]; subst.
  apply Hnot. left. reflexivity.
Qed.

(** The key written for [photos/cat.png]. *)
Lemma C8_witness :
  let s := initial (Sim.start [] 1 []) in
  exists ev,
    s3_fields Sim.cat = Ok ev /\
    exists new t1 t2,
      trace (snd (process_s3_record "dstbkt" Sim.cat s)) = trace s ++ new /\
      clock_reads new = [t1; t2] /\
      map put_key (writes new)
        = [("processed/"
            ++ (zero_pad 4 (year t2) ++ zero_pad 2 (month t2)
                ++ zero_pad 2 (day t2) ++ "-"
                ++ zero_pad 2 (hour t2) ++ zero_pad 2 (minute t2)
                ++ zero_pad 2 (second t2) ++ "-"
                ++ zero_pad 6 (microsecond t2))
            ++ "-" ++ "photos_cat.png" ++ ".json")%string].
Proof.
  eexists. split; [vm_compute; reflexivity |].
  destruct (C8_output_key_format (RT := Sim.runtime) "dstbkt" Sim.cat _
              (initial (Sim.start [] 1 [])) eq_refl)
    as (raw & new & t1 & t2 & ct & lm & o & R & T & C & _ & Wr).
  exists new, t1, t2. split; [exact T |]. split; [exact C |].
  rewrite Wr. vm_compute in R. inversion R; subst raw. reflexivity.
Defined.

(** C8 as stated fails: the clock moves between the read stored in the
    result and the read that stamps the key. *)
Lemma C8_counterexample :
  let s := initial (Sim.start [] 1 []) in
  exists ev new,
    s3_fields Sim.cat = Ok ev /\
    trace (snd (process_s3_record "dstbkt" Sim.cat s)) = trace s ++ new /\
    map put_key (writes new)
      = ["processed/20240101-000000-000001-photos_cat.png.json"] /\
    map (fun p => res_bind (Json.loads (put_body p))
                    (fun v => getitem v "processed_at")) (writes new)
      = [Ok (JStr "2024-01-01T00:00:00")] /\
    ~ key_stamped_by_record_time "dstbkt" ev new.
Proof.
  eexists. eexists.
  split; [vm_compute; reflexivity |]. split; [vm_compute; reflexivity |].
  split; [vm_compute; reflexivity |]. split; [vm_compute; reflexivity |].
  intros (t & later & ct & lm & o & C & Wr).
  vm_compute in C. injection C as <- _.
  apply (f_equal (map put_key)) in Wr.
  vm_compute in Wr. discriminate Wr.
Qed.

(** The key [my+dog%2Bbone.png] is fetched as [my dog+bone.png]. *)
Lemma C9_witness :
  let s := initial (Sim.start [] 1 []) in
  exists ev,
    s3_fields Sim.dog = Ok ev /\
    raw_key Sim.dog = Ok (JStr "my+dog%2Bbone.png") /\
    exists new,
      trace (snd (process_s3_record "dstbkt" Sim.dog s)) = trace s ++ new /\
      fetches new = [(JStr "srcbkt", "my dog+bone.png")].
Proof.
  eexists. split; [vm_compute; reflexivity |]. split; [reflexivity |].
  destruct (C9_key_decoded_before_use (RT := Sim.runtime) "dstbkt" Sim.dog _
              (initial (Sim.start [] 1 [])) eq_refl)
    as (_ & raw & new & t1 & t2 & ct & lm & o & R & T & F & _).
  exists new. split; [exact T |].
  rewrite F. vm_compute in R. inversion R; subst raw. reflexivity.
Defined.

(** Two records, both failing: a malformed one and one whose first write
    raises. *)
Lemma C10_witness :
  let records := [Sim.broken_envelope; Sim.envelope [Sim.cat; Sim.dog]] in
  let s := initial (Sim.start [] 1 [0]) in
  environ_get (@environ _ Sim.runtime) "DESTINATION_BUCKET" = Ok "dstbkt" /\
  getitem (Sim.batch records) "Records" = Ok (JArr records) /\
  exists s',
    lambda_handler (Sim.batch records) JNull s = (Ok (response_of s'), s') /\
    (0 <= failed_count s' <= 2)%Z.
Proof.
  split; [reflexivity |]. split; [reflexivity |].
  destruct (C10_failed_count_at_most_envelopes (RT := Sim.runtime) "dstbkt"
              [Sim.broken_envelope; Sim.envelope [Sim.cat; Sim.dog]]
              (Sim.batch [Sim.broken_envelope; Sim.envelope [Sim.cat; Sim.dog]])
              JNull (initial (Sim.start [] 1 [0])) eq_refl eq_refl)
    as [(s' & H & B & _) _].
  exists s'. split; [exact H | exact B].
Defined.

(** The empty batch. *)
Example empty_batch :
  fst (lambda_handler (Sim.batch []) JNull (initial (Sim.start [] 1 [])))
  = Ok {| statusCode := 200;
          body := Json.dumps None
                    (JObj [("processed", JInt 0); ("failed", JInt 0)]) |}.
Proof. vm_compute. reflexivity. Qed.

(** ** More closed runs *)

(** An event that is not a dict has no [Records]: the handler raises and
    nothing has been called. *)
Example handler_raises_on_null_event :
  lambda_handler JNull JNull (initial (Sim.start [] 1 []))
  = (Raise (TypeError "object is not subscriptable"),
     initial (Sim.start [] 1 [])).
Proof. vm_compute. reflexivity. Qed.

(** The keys [a/b] and [a_b] get one result key when stamped alike. *)
Example slash_and_underscore_collide :
  result_key (Sim.datetime_of 5) "a/b" = result_key (Sim.datetime_of 5) "a_b".
Proof. reflexivity. Qed.

(** [cat] is done, then an event without [eventTime] fails the record and
    [dog] is never looked at. *)
Lemma unreadable_event_witness :
  let record := Sim.envelope [Sim.cat; Sim2.no_time; Sim.dog] in
  let s := initial (Sim.start [] 1 []) in
  let s1 := snd (for_each [Sim.cat] (process_s3_record "dstbkt") s) in
  sns_records record = Ok ([Sim.cat] ++ Sim2.no_time :: [Sim.dog]) /\
  for_each [Sim.cat] (process_s3_record "dstbkt") s = (Ok tt, s1) /\
  s3_fields Sim2.no_time = Raise (KeyError "eventTime") /\
  (let s' := snd (handle_record "dstbkt" record s) in
   processed_count s' = 1%Z /\ failed_count s' = 1%Z /\
   List.length (fetches (trace s')) = 1).
Proof.
  assert (H1 : sns_records (RT := Sim.runtime)
                 (Sim.envelope [Sim.cat; Sim2.no_time; Sim.dog])
               = Ok ([Sim.cat] ++ Sim2.no_time :: [Sim.dog]))
    by (vm_compute; reflexivity).
  assert (H2 : for_each [Sim.cat] (process_s3_record (RT := Sim.runtime) "dstbkt")
                 (initial (Sim.start [] 1 []))
               = (Ok tt,
                  snd (for_each [Sim.cat]
                         (process_s3_record (RT := Sim.runtime) "dstbkt")
                         (initial (Sim.start [] 1 [])))))
    by (vm_compute; reflexivity).
  split; [exact H1 |]. split; [exact H2 |]. split; [reflexivity |].
  cbv zeta.
  rewrite (unreadable_event_fails_record (RT := Sim.runtime) "dstbkt"
             _ _ _ _ _ _ _ H1 H2 eq_refl).
  vm_compute. repeat split.
Defined.

(** The PNG object of the catalogue, and an object whose answer has no
    content type and no date. *)
Lemma lookup_success_witness :
  let r := Sim.s3_record "srcbkt" "a%2Bb.png" 1024 "2024-01-01T00:00:00Z" in
  let s := initial (Sim.start [("srcbkt", "a+b.png", Sim2.bare)] 1 []) in
  exists ev,
    s3_fields r = Ok ev /\
    fst (head_object (source_bucket ev) (object_key ev) (world s)) = Ok Sim2.bare /\
    exists o s',
      process_s3_record "dstbkt" r s
        = (match o with
           | None => Ok tt
           | Some e' => Raise e'
           end, s') /\
      failed_count s' = failed_count s.
Proof.
  eexists. split; [vm_compute; reflexivity |]. split; [reflexivity |].
  destruct (lookup_success_fills_metadata (RT := Sim.runtime) "dstbkt"
              (Sim.s3_record "srcbkt" "a%2Bb.png" 1024 "2024-01-01T00:00:00Z")
              _ Sim2.bare
              (initial (Sim.start [("srcbkt", "a+b.png", Sim2.bare)] 1 []))
              eq_refl eq_refl)
    as (t1 & t2 & o & s' & H & _ & F).
  exists o, s'. split; [exact H | exact F].
Defined.

Example bare_answer_defaults :
  let r := Sim.s3_record "srcbkt" "a%2Bb.png" 1024 "2024-01-01T00:00:00Z" in
  let s := initial (Sim.start [("srcbkt", "a+b.png", Sim2.bare)] 1 []) in
  map (fun p => res_bind (Json.loads (put_body p))
                  (fun v => res_bind (getitem v "content_type")
                              (fun c => res_bind (getitem v "last_modified")
                                          (fun m => Ok (c, m)))))
    (writes (trace (snd (process_s3_record "dstbkt" r s))))
  = [Ok (JStr "unknown", JStr "")].
Proof. vm_compute. reflexivity. Qed.

Lemma plain_key_witness :
  let s := initial (Sim.start [] 1 []) in
  exists ev,
    s3_fields Sim.cat = Ok ev /\
    raw_key Sim.cat = Ok (JStr "photos/cat.png") /\
    occurs "+" "photos/cat.png" = false /\
    occurs "%" "photos/cat.png" = false /\
    exists new,
      trace (snd (process_s3_record "dstbkt" Sim.cat s)) = trace s ++ new /\
      fetches new = [(source_bucket ev, "photos/cat.png")].
Proof.
  eexists. split; [vm_compute; reflexivity |]. split; [reflexivity |].
  split; [reflexivity |]. split; [reflexivity |].
  apply (plain_key_is_fetched_as_is (RT := Sim.runtime) "dstbkt" Sim.cat _
           "photos/cat.png" (initial (Sim.start [] 1 [])));
    reflexivity.
Defined.

Lemma writes_go_to_destination_witness :
  let event := Sim.batch [Sim.envelope [Sim.cat; Sim.dog]; Sim.broken_envelope] in
  environ_get (@environ _ Sim.runtime) "DESTINATION_BUCKET" = Ok "dstbkt" /\
  Forall (put_to "dstbkt")
    (trace (snd (lambda_handler event JNull (initial (Sim.start [] 1 [1]))))).
Proof.
  split; [reflexivity |].
  apply (writes_go_to_destination (RT := Sim.runtime) "dstbkt"). reflexivity.
Defined.

(** A batch of three records, split after the first; the second write of
    the run raises, whichever way the batch is cut. *)
Lemma batch_split_witness :
  let a := [Sim.envelope [Sim.cat]] in
  let b := [Sim.envelope [Sim.dog; Sim.bird]; Sim.broken_envelope] in
  let w := Sim.start [] 1 [1] in
  environ_get (@environ _ Sim.runtime) "DESTINATION_BUCKET" = Ok "dstbkt" /\
  getitem (Sim.batch a) "Records" = Ok (JArr a) /\
  getitem (Sim.batch b) "Records" = Ok (JArr b) /\
  getitem (Sim.batch (a ++ b)) "Records" = Ok (JArr (a ++ b)) /\
  (let s1 := snd (lambda_handler (Sim.batch a) JNull (initial w)) in
   let s2 := snd (lambda_handler (Sim.batch b) JNull (initial (world s1))) in
   let s12 := snd (lambda_handler (Sim.batch (a ++ b)) JNull (initial w)) in
   processed_count s12 = (processed_count s1 + processed_count s2)%Z /\
   failed_count s12 = (failed_count s1 + failed_count s2)%Z).
Proof.
  split; [reflexivity |]. split; [reflexivity |]. split; [reflexivity |].
  split; [reflexivity |].
  destruct (batch_split (RT := Sim.runtime) "dstbkt"
              [Sim.envelope [Sim.cat]]
              [Sim.envelope [Sim.dog; Sim.bird]; Sim.broken_envelope]
              (Sim.batch [Sim.envelope [Sim.cat]])
              (Sim.batch [Sim.envelope [Sim.dog; Sim.bird]; Sim.broken_envelope])
              (Sim.batch ([Sim.envelope [Sim.cat]]
                          ++ [Sim.envelope [Sim.dog; Sim.bird];
                              Sim.broken_envelope]))
              JNull (Sim.start [] 1 [1]) eq_refl eq_refl eq_refl eq_refl)
    as (_ & _ & P & F).
  split; [exact P | exact F].
Defined.

Example batch_split_counts :
  let a := [Sim.envelope [Sim.cat]] in
  let b := [Sim.envelope [Sim.dog; Sim.bird]; Sim.broken_envelope] in
  let s12 := snd (lambda_handler (Sim.batch (a ++ b)) JNull
                    (initial (Sim.start [] 1 [1]))) in
  (processed_count s12, failed_count s12) = (1%Z, 2%Z).
Proof. vm_compute. reflexivity. Qed.

Lemma batch_without_failure_witness :
  let records := [Sim.envelope [Sim.cat; Sim.dog]; Sim.envelope [];
                  Sim.envelope [Sim.bird]] in
  let s' := snd (lambda_handler (Sim.batch records) JNull
                   (initial (Sim.start [] 1 []))) in
  environ_get (@environ _ Sim.runtime) "DESTINATION_BUCKET" = Ok "dstbkt" /\
  getitem (Sim.batch records) "Records" = Ok (JArr records) /\
  forallb well_formed records = true /\
  Forall (fun p => put_outcome p = None) (writes (trace s')) /\
  processed_count s' = 3%Z /\ failed_count s' = 0%Z.
Proof.
  assert (WF : forallb (well_formed (RT := Sim.runtime))
                 [Sim.envelope [Sim.cat; Sim.dog]; Sim.envelope [];
                  Sim.envelope [Sim.bird]] = true)
    by (vm_compute; reflexivity).
  assert (A : Forall (fun p => put_outcome p = None)
                (writes (trace (snd (lambda_handler (RT := Sim.runtime)
                                       (Sim.batch [Sim.envelope [Sim.cat; Sim.dog];
                                                   Sim.envelope [];
                                                   Sim.envelope [Sim.bird]])
                                       JNull (initial (Sim.start [] 1 [])))))))
    by (vm_compute; repeat constructor).
  split; [reflexivity |]. split; [reflexivity |]. split; [exact WF |].
  split; [exact A |].
  destruct (batch_without_failure (RT := Sim.runtime) "dstbkt"
              [Sim.envelope [Sim.cat; Sim.dog]; Sim.envelope [];
               Sim.envelope [Sim.bird]]
              (Sim.batch [Sim.envelope [Sim.cat; Sim.dog]; Sim.envelope [];
                          Sim.envelope [Sim.bird]])
              JNull (Sim.start [] 1 []) eq_refl eq_refl WF A)
    as (P & F & _).
  split; [exact P | exact F].
Defined.
